(** * M2DataWorkflow: the course-ranking pipeline of [process_data.py]

    A shallow embedding of [main]: the header parsing, the row cleaning,
    the per-course statistics, the two-key ranking and the effects on
    standard output, the file system and the plotting state.

    Conventions of the embedding.
    - A pandas number is a float64 that is not NaN ([num]: a rational, or
      one of the two infinities); the missing value NaN is [None].
      Comparisons on numbers that may be NaN follow the floating-point
      rule: a comparison with NaN is false.
    - The float64 arithmetic of pandas and Python (the mean of a column,
      the sum [width + 0.05]) is a parameter ([Arith]): nothing is assumed
      of its rounding. [Binary64] is the instance that computes with the
      primitive binary64 floats.
    - A Python exception is a value of [exn]; code that may raise returns
      [exn + A].
    - [main] runs in a state-and-exception monad over [World]. *)

From Equations Require Import Equations.
From Stdlib Require Import String Ascii List Arith ZArith QArith Lia Bool.
From Stdlib Require Import Permutation DecimalString.
From Stdlib Require PrimFloat FloatOps SpecFloat Uint63.
Import ListNotations.
Close Scope Q_scope.
Close Scope Z_scope.
Open Scope string_scope.
Open Scope list_scope.

(* ===================================================================== *)
(** * Exceptions *)
(* ===================================================================== *)

Inductive exn : Type :=
| FileNotFoundError
| ValueError
| IndexError
| TypeError
| OtherError (what : string).

Definition is_FileNotFoundError (e : exn) : bool :=
  match e with
  | FileNotFoundError => true
  | _ => false
  end.

(** The exception monad of the pure steps. *)
Definition bind_exn {A B : Type} (m : exn + A) (k : A -> exn + B) : exn + B :=
  match m with
  | inl e => inl e
  | inr a => k a
  end.

Fixpoint map_exn {A B : Type} (f : A -> exn + B) (xs : list A) : exn + list B :=
  match xs with
  | [] => inr []
  | x :: xs' =>
      bind_exn (f x) (fun y =>
      bind_exn (map_exn f xs') (fun ys => inr (y :: ys)))
  end.

(* ===================================================================== *)
(** * Numbers *)
(* ===================================================================== *)

(** A float64 that is not NaN: a finite value, which is a rational, or an
    infinity. *)
Inductive num : Type :=
| Fin (q : Q)
| PInf
| NInf.

(** The order of the floats that are not NaN. *)
Definition num_compare (x y : num) : comparison :=
  match x, y with
  | Fin a, Fin b => (a ?= b)%Q
  | NInf, NInf => Eq
  | NInf, _ => Lt
  | _, NInf => Gt
  | PInf, PInf => Eq
  | PInf, _ => Gt
  | _, PInf => Lt
  end.

(** The float64 operations that the program runs: [f64_mean xs] is the
    mean that [Series.mean] computes of the values [xs], of which there is
    at least one, and [f64_add x y] is [x + y]; [None] is the result NaN
    (as for the mean of inf and -inf). *)
Record Arith : Type := mkArith {
  f64_mean : list num -> option num;
  f64_add : num -> num -> option num
}.

(** The float64 that the literal [0.05] denotes. *)
Definition literal_005 : num :=
  Fin (3602879701896397 # 72057594037927936).

(* ===================================================================== *)
(** * Python strings: [in], [str.split] and indexing with [-1] *)
(* ===================================================================== *)

(** [s.startswith(sep)], returning the text after [sep]. *)
Fixpoint strip_prefix (sep s : string) : option string :=
  match sep, s with
  | EmptyString, _ => Some s
  | String a sep', String b s' =>
      if Ascii.eqb a b then strip_prefix sep' s' else None
  | String _ _, EmptyString => None
  end.

(** [sep in s]: some position of [s] starts with [sep]. *)
Fixpoint contains (sep s : string) : bool :=
  match strip_prefix sep s with
  | Some _ => true
  | None =>
      match s with
      | EmptyString => false
      | String _ s' => contains sep s'
      end
  end.

(** One round of the loop of [str.split]: [pos = s.find(sep)], and when it
    is found the two slices [s[:pos]] and [s[pos + len(sep):]]. *)
Fixpoint cut (sep s : string) : option (string * string) :=
  match strip_prefix sep s with
  | Some rest => Some (EmptyString, rest)
  | None =>
      match s with
      | EmptyString => None
      | String c s' =>
          match cut sep s' with
          | Some (b, a) => Some (String c b, a)
          | None => None
          end
      end
  end.

Definition inspect {A : Type} (a : A) : {b : A | a = b} := exist _ a eq_refl.

(** The loop of [s.split(sep)] for a separator [String c sep'], which is not
    empty: cut at the first occurrence, go on in the text after it, and end
    with the text that holds no occurrence. *)
Equations? split_from (c : ascii) (sep' s : string) : list string
  by wf (String.length s) lt :=
  split_from c sep' s with inspect (cut (String c sep') s) := {
    | exist _ (Some (b, a)) _ := b :: split_from c sep' a;
    | exist _ None _ := [s] }.
Proof.
  clear split_from.
  assert (Hstrip : forall p t r, strip_prefix p t = Some r ->
                                 String.length t = String.length p + String.length r).
  { induction p as [|x p IH]; intros [|y t] r H; simpl in H;
      try discriminate; try (inversion H; reflexivity).
    destruct (Ascii.eqb x y); [|discriminate]. simpl. now rewrite (IH _ _ H). }
  revert b a e. induction s as [|x s IH]; intros b a H; simpl in H.
  - discriminate.
  - destruct (Ascii.eqb c x).
    + destruct (strip_prefix sep' s) as [r|] eqn:E.
      * inversion H; subst. apply Hstrip in E. simpl. lia.
      * destruct (cut (String c sep') s) as [[b' a']|]; [|discriminate].
        inversion H; subst. specialize (IH _ _ eq_refl). simpl. lia.
    + destruct (cut (String c sep') s) as [[b' a']|]; [|discriminate].
      inversion H; subst. specialize (IH _ _ eq_refl). simpl. lia.
Qed.

(** [s.split(sep)]; Python raises [ValueError] on an empty separator. *)
Definition split (sep s : string) : exn + list string :=
  match sep with
  | EmptyString => inl ValueError
  | String c sep' => inr (split_from c sep' s)
  end.

(** [xs[-1]]; Python raises [IndexError] on an empty list. *)
Fixpoint last_item {A : Type} (xs : list A) : exn + A :=
  match xs with
  | [] => inl IndexError
  | [x] => inr x
  | _ :: xs' => last_item xs'
  end.

(* ===================================================================== *)
(** * Course names (lines 25-32) *)
(* ===================================================================== *)

(** A column label of the parsed sheet: the header text, or a header cell
    that is not text (a number), which pandas keeps as it is. *)
Inductive label : Type :=
| LStr (s : string)
| LNum (n : Z).

Definition SEP : string := " - ".

(** The body of the loop over [target_cols]. [" - " in col] raises
    [TypeError] when [col] is not a string. *)
Definition course_name (col : label) : exn + string :=
  match col with
  | LNum _ => inl TypeError
  | LStr s =>
      if contains SEP s
      then bind_exn (split SEP s) last_item
      else inr s
  end.

Definition course_names_of (target_cols : list label) : exn + list string :=
  map_exn course_name target_cols.

(* ===================================================================== *)
(** * Tables *)
(* ===================================================================== *)

(** A cell as the spreadsheet reader delivers it: a number, a text, or the
    missing value of an empty cell. *)
Inductive cell : Type :=
| CNum (x : num)
| CStr (s : string)
| CNaN.

(** A data frame: column labels and rows of cells, positionally. *)
Record Frame (L C : Type) : Type := mkFrame {
  columns : list L;
  rows : list (list C)
}.
Arguments mkFrame {L C} _ _.
Arguments columns {L C} _.
Arguments rows {L C} _.

Definition DataFrame : Type := Frame label cell.

Definition len {L C : Type} (data : Frame L C) : nat := length (rows data).

(** [xs[idxs]] with a list of positions; a position past the end raises
    [IndexError]. *)
Definition take_positions {A : Type} (xs : list A) (idxs : list nat)
  : exn + list A :=
  map_exn (fun i => match nth_error xs i with
                    | Some x => inr x
                    | None => inl IndexError
                    end) idxs.

(** [df.iloc[start:, idxs]]: the rows from [start] on, restricted to the
    columns at [idxs]. A frame is rectangular, so every row has a cell at
    each position that the column labels have; a row that lacks one reads
    as the missing value. *)
Definition iloc_from {L : Type} (df : Frame L cell) (start : nat)
    (idxs : list nat) : exn + Frame L cell :=
  bind_exn (take_positions (columns df) idxs) (fun cols =>
  inr (mkFrame cols
         (map (fun r => map (fun i => nth i r CNaN) idxs)
              (skipn start (rows df))))).

(** [data.columns = names]; pandas raises [ValueError] on a length
    mismatch. *)
Definition set_columns {L L' C : Type} (data : Frame L C) (names : list L')
  : exn + Frame L' C :=
  if Nat.eqb (length names) (length (columns data))
  then inr (mkFrame names (rows data))
  else inl ValueError.

Section Coercion.

(** The conversion of a text cell by [pd.to_numeric]: the number it
    denotes, if any. It belongs to pandas and is a parameter here. *)
Variable str_to_num : string -> option num.

(** [pd.to_numeric(..., errors='coerce')] on one cell. *)
Definition to_numeric (c : cell) : option num :=
  match c with
  | CNum x => Some x
  | CStr s => str_to_num s
  | CNaN => None
  end.

(** [data.apply(pd.to_numeric, errors='coerce')]. *)
Definition apply_to_numeric {L : Type} (data : Frame L cell)
  : Frame L (option num) :=
  mkFrame (columns data) (map (map to_numeric) (rows data)).

End Coercion.

Definition notna (v : option num) : bool :=
  match v with
  | Some _ => true
  | None => false
  end.

(** [data.dropna()]: keep the rows without a missing value. *)
Definition dropna {L : Type} (data : Frame L (option num))
  : Frame L (option num) :=
  mkFrame (columns data) (filter (forallb notna) (rows data)).

(** ** Column statistics *)

Definition column_at {L : Type} (data : Frame L (option num)) (j : nat)
  : list (option num) :=
  map (fun r => nth j r None) (rows data).

(** The values of a column that are not missing. *)
Fixpoint present (vs : list (option num)) : list num :=
  match vs with
  | [] => []
  | Some x :: vs' => x :: present vs'
  | None :: vs' => present vs'
  end.

(** [Series.mean()]: missing values are skipped; NaN when nothing is
    left, and the float64 mean of the values otherwise. *)
Definition series_mean (fp : Arith) (vs : list (option num)) : option num :=
  match present vs with
  | [] => None
  | xs => f64_mean fp xs
  end.

(** [Series.count()]: the number of values that are not missing. *)
Definition series_count (vs : list (option num)) : nat := length (present vs).

Definition enumerate {A : Type} (xs : list A) : list (nat * A) :=
  combine (seq 0 (length xs)) xs.

(** [data.mean()] and [data.count()]: one entry per column, indexed by
    the column label. *)
Definition frame_mean {L : Type} (fp : Arith) (data : Frame L (option num))
  : list (L * option num) :=
  map (fun jc => (snd jc, series_mean fp (column_at data (fst jc))))
      (enumerate (columns data)).

Definition frame_count {L : Type} (data : Frame L (option num))
  : list (L * nat) :=
  map (fun jc => (snd jc, series_count (column_at data (fst jc))))
      (enumerate (columns data)).

(** A row of [stats]; the index label becomes the column [Course] at
    [reset_index] and [rename]. *)
Record RankingRow : Type := mkRow {
  Course : string;
  AverageRating : option num;
  Count : nat
}.

(** [pd.DataFrame({'Average Rating': means, 'Count': counts})]: the two
    series carry the same index, so the rows pair up in order. *)
Definition stats_frame (means : list (string * option num))
    (counts : list (string * nat)) : list RankingRow :=
  map (fun mc => mkRow (fst (fst mc)) (snd (fst mc)) (snd (snd mc)))
      (combine means counts).

(** ** Sorting *)

(** Ascending order of the averages, NaN last. *)
Definition avg_compare (a b : option num) : comparison :=
  match a, b with
  | Some x, Some y => num_compare x y
  | Some _, None => Lt
  | None, Some _ => Gt
  | None, None => Eq
  end.

(** The sort key: 'Average Rating' ascending, then 'Count' descending. *)
Definition key_compare (a b : RankingRow) : comparison :=
  match avg_compare (AverageRating a) (AverageRating b) with
  | Eq => Nat.compare (Count b) (Count a)
  | c => c
  end.

Definition key_leb (a b : RankingRow) : bool :=
  match key_compare a b with
  | Gt => false
  | _ => true
  end.

Definition same_key (a b : RankingRow) : bool :=
  match key_compare a b with
  | Eq => true
  | _ => false
  end.

Fixpoint insert_row (x : RankingRow) (l : list RankingRow) : list RankingRow :=
  match l with
  | [] => [x]
  | y :: l' => if key_leb x y then x :: l else y :: insert_row x l'
  end.

(** [stats.sort_values(by=['Average Rating', 'Count'],
    ascending=[True, False])]: the stable sort of the rows by the key,
    computed by insertion ([sort_values_unique] below: a stable sort has
    one result, whatever the algorithm). *)
Fixpoint sort_values (l : list RankingRow) : list RankingRow :=
  match l with
  | [] => []
  | x :: l' => insert_row x (sort_values l')
  end.

(* ===================================================================== *)
(** * The world of the program *)
(* ===================================================================== *)

(** A bar of the chart and a text placed next to it. *)
Record Bar : Type := mkBar {
  bar_label : string;
  bar_width : option num
}.

Record Annotation : Type := mkAnnotation {
  text_x : option num;     (* width + 0.05 *)
  text_bar : string;       (* the bar it is centred on *)
  text_shown : option num  (* the width, printed with two decimals *)
}.

(** The current pyplot figure. [bars] lists the bars in the order given to
    [barh], which draws them from the bottom of the axis upwards. *)
Record Figure : Type := mkFigure {
  figsize : nat * nat;
  bars : list Bar;
  bar_color : string;
  xlabel : string;
  ylabel : string;
  title : string;
  grid_axis : option string;
  texts : list Annotation;
  tight : bool
}.

Definition empty_figure (size : nat * nat) : Figure :=
  mkFigure size [] "" "" "" "" None [] false.

(** A workbook: its sheets by name, in order, each as [parse(header=1)]
    reads it. *)
Definition Workbook : Type := list (string * DataFrame).

Inductive file : Type :=
| ExcelBook (wb : Workbook)
| CsvFile (header : list string) (body : list RankingRow)
| PngFile (fig : Figure)
| OtherFile.

(** What [print] wrote: a line of text, a text followed by a list, or a
    printed table. *)
Inductive printed : Type :=
| Text (s : string)
| TextList (s : string) (items : list string)
| Table (t : list RankingRow).

Record World : Type := mkWorld {
  stdout : list printed;
  files : list (string * file);
  dirs : list string;
  figure : option Figure
}.

Fixpoint lookup {A : Type} (k : string) (m : list (string * A)) : option A :=
  match m with
  | [] => None
  | (k', v) :: m' => if String.eqb k k' then Some v else lookup k m'
  end.

(** ** The monad of [main]: state and exceptions *)

Definition M (A : Type) : Type := World -> (exn + A) * World.

Definition ret {A : Type} (a : A) : M A := fun w => (inr a, w).

Definition raise {A : Type} (e : exn) : M A := fun w => (inl e, w).

Definition bind {A B : Type} (m : M A) (k : A -> M B) : M B :=
  fun w =>
    match m w with
    | (inl e, w') => (inl e, w')
    | (inr a, w') => k a w'
    end.

Notation "x <- m ;; k" := (bind m (fun x => k))
  (at level 61, m at next level, right associativity).
Notation "m ;; k" := (bind m (fun _ => k))
  (at level 61, right associativity).

Definition lift {A : Type} (r : exn + A) : M A := fun w => (r, w).

(** [try: body except E: ...] for the exceptions accepted by [handles]:
    [None] says that the handler has to run. *)
Definition try_except {A : Type} (body : M A) (handles : exn -> bool)
  : M (option A) :=
  fun w =>
    match body w with
    | (inl e, w') => if handles e then (inr None, w') else (inl e, w')
    | (inr a, w') => (inr (Some a), w')
    end.

(** ** The operations on the world *)

Definition print (p : printed) : M unit :=
  fun w => (inr tt, mkWorld (stdout w ++ [p]) (files w) (dirs w) (figure w)).

(** [pd.ExcelFile(path)]. *)
Definition ExcelFile (path : string) : M Workbook :=
  fun w =>
    match lookup path (files w) with
    | None => (inl FileNotFoundError, w)
    | Some (ExcelBook wb) => (inr wb, w)
    | Some _ => (inl (OtherError "not an Excel workbook"), w)
    end.

Definition sheet_names (xl : Workbook) : list string := map fst xl.

(** [xs[0]]. *)
Definition first_item {A : Type} (xs : list A) : exn + A :=
  match xs with
  | [] => inl IndexError
  | x :: _ => inr x
  end.

(** [xl.parse(name, header=1)]. *)
Definition parse (xl : Workbook) (name : string) : exn + DataFrame :=
  match lookup name xl with
  | Some df => inr df
  | None => inl ValueError
  end.

(** [os.makedirs(d, exist_ok=True)]. The directories are kept apart from
    the files: the case of a regular file at the path [d], on which
    [os.makedirs] raises [FileExistsError], is left out of the model. *)
Definition makedirs (d : string) : M unit :=
  fun w =>
    (inr tt,
     mkWorld (stdout w) (files w)
             (if existsb (String.eqb d) (dirs w) then dirs w else d :: dirs w)
             (figure w)).

Definition path_join (d f : string) : string := (d ++ "/" ++ f)%string.

Definition write_file (path : string) (f : file) : M unit :=
  fun w => (inr tt, mkWorld (stdout w) ((path, f) :: files w) (dirs w) (figure w)).

(** [stats.to_csv(path, index=False)]. *)
Definition to_csv (stats : list RankingRow) (path : string) : M unit :=
  write_file path (CsvFile ["Course"; "Average Rating"; "Count"] stats).

(** pyplot acts on the current figure. *)
Definition gcf (w : World) : Figure :=
  match figure w with
  | Some f => f
  | None => empty_figure (6, 4)
  end.

Definition on_figure (f : Figure -> Figure) : M unit :=
  fun w => (inr tt, mkWorld (stdout w) (files w) (dirs w) (Some (f (gcf w)))).

Definition plt_figure (size : nat * nat) : M unit :=
  fun w => (inr tt, mkWorld (stdout w) (files w) (dirs w) (Some (empty_figure size))).

(** [plt.barh(y, width, color=c)]: one bar per entry, in order; the bars
    are returned. *)
Definition plt_barh (y : list string) (width : list (option num)) (c : string)
  : M (list Bar) :=
  let bs := map (fun yw => mkBar (fst yw) (snd yw)) (combine y width) in
  on_figure (fun f =>
    mkFigure (figsize f) (bars f ++ bs) c (xlabel f) (ylabel f) (title f)
             (grid_axis f) (texts f) (tight f)) ;;
  ret bs.

Definition plt_xlabel (s : string) : M unit :=
  on_figure (fun f =>
    mkFigure (figsize f) (bars f) (bar_color f) s (ylabel f) (title f)
             (grid_axis f) (texts f) (tight f)).

Definition plt_ylabel (s : string) : M unit :=
  on_figure (fun f =>
    mkFigure (figsize f) (bars f) (bar_color f) (xlabel f) s (title f)
             (grid_axis f) (texts f) (tight f)).

Definition plt_title (s : string) : M unit :=
  on_figure (fun f =>
    mkFigure (figsize f) (bars f) (bar_color f) (xlabel f) (ylabel f) s
             (grid_axis f) (texts f) (tight f)).

Definition plt_grid (axis : string) : M unit :=
  on_figure (fun f =>
    mkFigure (figsize f) (bars f) (bar_color f) (xlabel f) (ylabel f) (title f)
             (Some axis) (texts f) (tight f)).

Definition plt_text (a : Annotation) : M unit :=
  on_figure (fun f =>
    mkFigure (figsize f) (bars f) (bar_color f) (xlabel f) (ylabel f) (title f)
             (grid_axis f) (texts f ++ [a]) (tight f)).

Definition plt_tight_layout : M unit :=
  on_figure (fun f =>
    mkFigure (figsize f) (bars f) (bar_color f) (xlabel f) (ylabel f) (title f)
             (grid_axis f) (texts f) true).

Definition plt_savefig (path : string) : M unit :=
  fun w => write_file path (PngFile (gcf w)) w.

(** [for x in xs: body(x)]. *)
Fixpoint for_each {A : Type} (xs : list A) (body : A -> M unit) : M unit :=
  match xs with
  | [] => ret tt
  | x :: xs' => body x ;; for_each xs' body
  end.

(** [width + 0.05] on a number that may be NaN. *)
Definition plus_offset (fp : Arith) (v : option num) : option num :=
  match v with
  | Some x => f64_add fp x literal_005
  | None => None
  end.

(** [str(n)] for a count. *)
Definition str_of_nat (n : nat) : string :=
  NilEmpty.string_of_uint (Nat.to_uint n).

(* ===================================================================== *)
(** * [main] *)
(* ===================================================================== *)

Definition file_path : string := "Grad Program Exit Survey Data 2024.xlsx".
Definition output_dir : string := "results".
Definition csv_path : string := path_join output_dir "program_ranking.csv".
Definition png_path : string := path_join output_dir "program_ranking.png".

(** Columns L-S: [list(range(11, 19))]. *)
Definition target_cols_indices : list nat := seq 11 8.

Section Main.

Variable str_to_num : string -> option num.
Variable fp : Arith.

(** Lines 17-103, with the workbook open. *)
Definition main_body (xl : Workbook) : M unit :=
  sheet <- lift (first_item (sheet_names xl)) ;;
  df <- lift (parse xl sheet) ;;
  target_cols <- lift (take_positions (columns df) target_cols_indices) ;;
  course_names <- lift (course_names_of target_cols) ;;
  print (TextList "Identified courses:" course_names) ;;
  data <- lift (iloc_from df 1 target_cols_indices) ;;
  data <- lift (set_columns data course_names) ;;
  let data := apply_to_numeric str_to_num data in
  let initial_count := len data in
  let data := dropna data in
  let final_count := len data in
  print (Text ("Data cleaning: " ++ str_of_nat initial_count ++ " rows -> "
               ++ str_of_nat final_count ++ " rows (dropped "
               ++ str_of_nat (initial_count - final_count)
               ++ " rows with missing values).")%string) ;;
  let stats := stats_frame (frame_mean fp data) (frame_count data) in
  let stats := sort_values stats in
  print (Text "Ranking calculated:") ;;
  print (Table stats) ;;
  makedirs output_dir ;;
  to_csv stats csv_path ;;
  print (Text ("Saved ranking to " ++ csv_path)%string) ;;
  plt_figure (12, 8) ;;
  let plot_data := rev stats in
  bars <- plt_barh (map Course plot_data) (map AverageRating plot_data)
                   "#185C33" ;;
  plt_xlabel "Average Rating (1 = Best, 8 = Worst)" ;;
  plt_ylabel "MAcc CORE Courses" ;;
  plt_title "Course Ranking by Student Preference" ;;
  plt_grid "x" ;;
  for_each bars (fun bar =>
    let width := bar_width bar in
    plt_text (mkAnnotation (plus_offset fp width) (bar_label bar) width)) ;;
  plt_tight_layout ;;
  plt_savefig png_path ;;
  print (Text ("Saved plot to " ++ png_path)%string).

Definition main : M unit :=
  print (Text ("Loading data from " ++ file_path ++ "...")%string) ;;
  opened <- try_except (ExcelFile file_path) is_FileNotFoundError ;;
  match opened with
  | None =>
      print (Text ("Error: File " ++ file_path ++ " not found.")%string) ;;
      ret tt
  | Some xl => main_body xl
  end.

(** A run of the program from a file system: nothing printed yet, no
    figure open. *)
Definition run (fs : list (string * file)) (ds : list string)
  : (exn + unit) * World :=
  main (mkWorld [] fs ds None).

End Main.

(* ===================================================================== *)
(** * A sample survey *)
(* ===================================================================== *)

Module Sample.

(** A string conversion for the examples: unsigned decimal numerals. *)
Definition digits (s : string) : option num :=
  match s with
  | EmptyString => None
  | _ =>
      match NilEmpty.uint_of_string s with
      | Some u => Some (Fin (inject_Z (Z.of_uint u)))
      | None => None
      end
  end.

Definition headers : list label :=
  repeat (LStr "Respondent data") 11 ++
  [LStr "Q35_1 - Taxation"; LStr "Q35_2 - Audit"; LStr "Q35_3 - Finance";
   LStr "Q35_4 - Law"; LStr "Q35_5 - Data Analytics";
   LStr "Q35_6 - Research"; LStr "Q35_7 - Strategy"; LStr "Ethics"].

Definition answers (ratings : list cell) : list cell :=
  repeat (CStr "anonymous") 11 ++ ratings.

Definition numbers (zs : list Z) : list cell :=
  map (fun z => CNum (Fin (inject_Z z))) zs.

Definition metadata_row : list cell := repeat (CStr "{ImportId:QID35}") 19.

Definition odd_row : list cell := answers (numbers [1; 2; 3; 4; 5; 6; 7; 8]%Z).
Definition even_row : list cell := answers (numbers [2; 1; 3; 4; 5; 6; 8; 7]%Z).

(** The row of the cleaning example: seven numbers and the text N/A. *)
Definition na_ratings : list cell :=
  numbers [1; 2; 3; 4; 5; 6; 7]%Z ++ [CStr "N/A"].

Definition blank_ratings : list cell :=
  CNaN :: numbers [2; 3; 4; 5; 6; 7; 8]%Z.

(** Ten answers below the metadata row, two of them incomplete. *)
Definition survey : DataFrame :=
  mkFrame headers
    [metadata_row;
     odd_row; even_row; answers na_ratings; odd_row; even_row;
     odd_row; answers blank_ratings; even_row; odd_row; even_row].

(** A sheet whose answers are all text or blank. *)
Definition no_numbers : DataFrame :=
  mkFrame headers
    [metadata_row;
     answers (repeat (CStr "N/A") 8);
     answers (repeat CNaN 8)].



(** A sheet that ends before column S. *)
Definition narrow : DataFrame :=
  mkFrame (firstn 15 headers) [firstn 15 metadata_row].

Definition disk (df : DataFrame) : list (string * file) :=
  [(file_path, ExcelBook [("Sheet1", df)])].

End Sample.

(* ===================================================================== *)
(** * Binary64 arithmetic *)
(* ===================================================================== *)

(** The instance of [Arith] on the primitive binary64 floats, with which
    the program is run on the examples. A sum is taken from left to
    right; in the examples every partial sum is exact, so that the order
    of the additions does not change the result. *)
Module Binary64.

Definition float_of_Z (z : Z) : PrimFloat.float :=
  if (z <? 0)%Z
  then PrimFloat.opp (PrimFloat.of_uint63 (Uint63.of_Z (- z)))
  else PrimFloat.of_uint63 (Uint63.of_Z z).

(** The float nearest to a number whose numerator is below 2^53 and whose
    denominator is below 2^53 or a power of two below 2^63. *)
Definition to_float (x : num) : PrimFloat.float :=
  match x with
  | Fin q => PrimFloat.div (float_of_Z (Qnum q)) (float_of_Z (Zpos (Qden q)))
  | PInf => PrimFloat.infinity
  | NInf => PrimFloat.neg_infinity
  end.

(** The exact value of a float. *)
Definition of_float (x : PrimFloat.float) : option num :=
  match FloatOps.Prim2SF x with
  | SpecFloat.S754_zero _ => Some (Fin 0)
  | SpecFloat.S754_infinity s => Some (if s then NInf else PInf)
  | SpecFloat.S754_nan => None
  | SpecFloat.S754_finite s m e =>
      let v := (inject_Z (Zpos m) * (2 ^ e))%Q in
      Some (Fin (Qred (if s then - v else v)%Q))
  end.

(** The sum of the values divided by their number. *)
Definition mean (xs : list num) : option num :=
  of_float
    (PrimFloat.div
       (fold_left PrimFloat.add (map to_float xs) PrimFloat.zero)
       (float_of_Z (Z.of_nat (length xs)))).

Definition add (x y : num) : option num :=
  of_float (PrimFloat.add (to_float x) (to_float y)).

Definition arith : Arith := mkArith mean add.

End Binary64.

(* ===================================================================== *)
(** * The values [main] computes *)
(* ===================================================================== *)

(** The sheet that [xl.parse(xl.sheet_names[0], header=1)] reads. *)
Definition first_sheet (fs : list (string * file)) : option DataFrame :=
  match lookup file_path fs with
  | Some (ExcelBook ((_, df) :: _)) => Some df
  | _ => None
  end.

(** Lines 22-32: the course names of the eight columns. *)
Definition labels_of (df : DataFrame) : exn + list string :=
  bind_exn (take_positions (columns df) target_cols_indices) course_names_of.

(** Line 40: the rows below row 0, cut down to the eight columns. *)
Definition selected_rows (df : DataFrame) : list (list cell) :=
  map (fun r => map (fun i => nth i r CNaN) target_cols_indices)
      (skipn 1 (rows df)).

Section Values.

Variable str_to_num : string -> option num.
Variable fp : Arith.

(** A cell that [pd.to_numeric] turns into a number. *)
Definition numeric (c : cell) : bool := notna (to_numeric str_to_num c).

(** [data] after line 47 and after line 50. *)
Definition coerced (names : list string) (df : DataFrame)
  : Frame string (option num) :=
  apply_to_numeric str_to_num (mkFrame names (selected_rows df)).

Definition cleaned (names : list string) (df : DataFrame)
  : Frame string (option num) :=
  dropna (coerced names df).

(** [stats] after line 58 and after line 64. *)
Definition presort (names : list string) (df : DataFrame) : list RankingRow :=
  stats_frame (frame_mean fp (cleaned names df))
              (frame_count (cleaned names df)).

Definition ranking (names : list string) (df : DataFrame) : list RankingRow :=
  sort_values (presort names df).

End Values.

(** The table that [print(stats)] wrote. *)
Fixpoint printed_table (out : list printed) : option (list RankingRow) :=
  match out with
  | [] => None
  | Table t :: _ => Some t
  | _ :: out' => printed_table out'
  end.

Definition row_bar (r : RankingRow) : Bar := mkBar (Course r) (AverageRating r).

Definition bar_text (fp : Arith) (bar : Bar) : Annotation :=
  mkAnnotation (plus_offset fp (bar_width bar)) (bar_label bar) (bar_width bar).

(** The figure saved for a ranking [t]. *)
Definition chart (fp : Arith) (t : list RankingRow) : Figure :=
  mkFigure (12, 8) (map row_bar (rev t)) "#185C33"
    "Average Rating (1 = Best, 8 = Worst)" "MAcc CORE Courses"
    "Course Ranking by Student Preference" (Some "x")
    (map (bar_text fp) (map row_bar (rev t))) true.

Definition cleaning_report (initial final : nat) : string :=
  ("Data cleaning: " ++ str_of_nat initial ++ " rows -> "
   ++ str_of_nat final ++ " rows (dropped "
   ++ str_of_nat (initial - final) ++ " rows with missing values).")%string.

Definition loading_line : printed :=
  Text "Loading data from Grad Program Exit Survey Data 2024.xlsx...".

Definition not_found_line : printed :=
  Text "Error: File Grad Program Exit Survey Data 2024.xlsx not found.".

Definition csv_header : list string := ["Course"; "Average Rating"; "Count"].

(** The world after a run that reaches the end of [main]. *)
Definition success_world (fp : Arith) (fs : list (string * file))
    (ds : list string) (names : list string) (initial final : nat)
    (t : list RankingRow) : World :=
  mkWorld
    [loading_line;
     TextList "Identified courses:" names;
     Text (cleaning_report initial final);
     Text "Ranking calculated:";
     Table t;
     Text "Saved ranking to results/program_ranking.csv";
     Text "Saved plot to results/program_ranking.png"]
    ((png_path, PngFile (chart fp t)) :: (csv_path, CsvFile csv_header t) :: fs)
    (if existsb (String.eqb output_dir) ds then ds else output_dir :: ds)
    (Some (chart fp t)).

(** The world after a run that an exception ends. *)
Definition failed_world (fs : list (string * file)) (ds : list string) : World :=
  mkWorld [loading_line] fs ds None.

(** ** Comparisons of the claims *)

(** [<], [==] and [<=] on floats that are not NaN. *)
Definition num_lt (x y : num) : Prop :=
  match x, y with
  | Fin a, Fin b => (a < b)%Q
  | NInf, Fin _ | NInf, PInf | Fin _, PInf => True
  | _, _ => False
  end.

Definition num_eq (x y : num) : Prop :=
  match x, y with
  | Fin a, Fin b => (a == b)%Q
  | NInf, NInf | PInf, PInf => True
  | _, _ => False
  end.

Definition num_le (x y : num) : Prop := num_lt x y \/ num_eq x y.

(** [<] and [==] on numbers that may be NaN: false when either is NaN. *)
Definition float_lt (a b : option num) : Prop :=
  match a, b with
  | Some x, Some y => num_lt x y
  | _, _ => False
  end.

Definition float_eq (a b : option num) : Prop :=
  match a, b with
  | Some x, Some y => num_eq x y
  | _, _ => False
  end.

(** The order of two adjacent rows as the ranking rule words it. *)
Definition ranked_before (a b : RankingRow) : Prop :=
  float_lt (AverageRating a) (AverageRating b) \/
  (float_eq (AverageRating a) (AverageRating b) /\ Count b <= Count a).

Definition adjacent {A : Type} (l : list A) (a b : A) : Prop :=
  exists l1 l2, l = l1 ++ a :: b :: l2.

Inductive sorted_rows : list RankingRow -> Prop :=
| sorted_nil : sorted_rows []
| sorted_one x : sorted_rows [x]
| sorted_cons x y l :
    key_leb x y = true -> sorted_rows (y :: l) -> sorted_rows (x :: y :: l).

(** Rows of [n] cells without a missing value. *)
Definition complete (n : nat) (r : list (option num)) : Prop :=
  length r = n /\ forallb notna r = true.

(** The table of the sheet without a number: eight rows of NaN and 0. *)
Definition nan_table : list RankingRow :=
  map (fun n => mkRow n None 0)
      ["Taxation"; "Audit"; "Finance"; "Law"; "Data Analytics"; "Research";
       "Strategy"; "Ethics"].

(** The statistics of the course columns, in column order. *)
Definition per_course (fp : Arith) (names : list string)
    (data : Frame string (option num)) : list RankingRow :=
  map (fun j => mkRow (nth j names EmptyString)
                      (series_mean fp (column_at data j))
                      (series_count (column_at data j)))
      (seq 0 8).

(** ** Definitions for the further properties *)

(** [sep.join(segs)]. *)
Fixpoint join (sep : string) (segs : list string) : string :=
  match segs with
  | [] => EmptyString
  | [s] => s
  | s :: segs' => (s ++ sep ++ join sep segs')%string
  end.

(** A row with a cell that [pd.to_numeric] turns into NaN. *)
Definition incomplete (parser : string -> option num) (r : list cell) : bool :=
  existsb (fun c => negb (numeric parser c)) r.

(** [<=] on numbers that may be NaN: false when either is NaN. *)
Definition float_le (a b : option num) : Prop :=
  match a, b with
  | Some x, Some y => num_le x y
  | _, _ => False
  end.


(** The course names of the sample survey. *)
Definition sample_names : list string :=
  ["Taxation"; "Audit"; "Finance"; "Law"; "Data Analytics"; "Research";
   "Strategy"; "Ethics"].

(** The sample survey with other headers and blank cells outside columns
    L-S. *)
Definition blanked_survey : DataFrame :=
  mkFrame (repeat (LStr "hidden") 11 ++ skipn 11 Sample.headers)
          (map (fun r => repeat CNaN 11 ++ skipn 11 r) (rows Sample.survey)).

(* ===================================================================== *)
(** * Header parsing *)
(* ===================================================================== *)

Lemma strip_prefix_Some sep s r :
  strip_prefix sep s = Some r <-> s = (sep ++ r)%string.
Proof.
  revert s; induction sep as [|a sep IH]; intros [|b s]; simpl.
  - split; intros H; inversion H; reflexivity.
  - split; intros H; inversion H; reflexivity.
  - split; intros H; discriminate.
  - destruct (Ascii.eqb_spec a b) as [->|Hab].
    + rewrite IH. split; intros H; [subst; reflexivity | inversion H; reflexivity].
    + split; intros H; [discriminate | inversion H; congruence].
Qed.

Lemma append_length (s t : string) :
  String.length (s ++ t)%string = String.length s + String.length t.
Proof. induction s as [|c s IH]; simpl; [reflexivity | now rewrite IH]. Qed.

Lemma append_assoc (s t u : string) :
  ((s ++ t) ++ u = s ++ (t ++ u))%string.
Proof. induction s as [|c s IH]; simpl; [reflexivity | now rewrite IH]. Qed.

(** A cut splits the text around one occurrence of the separator. *)
Lemma cut_Some sep s b a : cut sep s = Some (b, a) -> s = (b ++ sep ++ a)%string.
Proof.
  revert b a; induction s as [|c s IH]; intros b a H; simpl in H.
  - destruct (strip_prefix sep "") eqn:E; [|discriminate].
    inversion H; subst. now apply strip_prefix_Some in E.
  - destruct (strip_prefix sep (String c s)) eqn:E.
    + inversion H; subst. now apply strip_prefix_Some in E.
    + destruct (cut sep s) as [[b' a']|] eqn:E'; [|discriminate].
      inversion H; subst. simpl. now rewrite (IH _ _ eq_refl).
Qed.

Lemma cut_shorter c sep' s b a :
  cut (String c sep') s = Some (b, a) -> String.length a < String.length s.
Proof.
  intros H. apply cut_Some in H. subst s.
  rewrite !append_length. simpl. lia.
Qed.

Lemma contains_cut sep s :
  contains sep s = true <-> exists b a, cut sep s = Some (b, a).
Proof.
  induction s as [|c s IH]; simpl.
  - destruct (strip_prefix sep ""); split; intros H; try discriminate; eauto.
    destruct H as (b & a & H); discriminate.
  - destruct (strip_prefix sep (String c s)).
    + split; eauto.
    + rewrite IH. split; intros (b & a & H).
      * rewrite H. eauto.
      * destruct (cut sep s) as [[b' a']|]; [eauto | discriminate].
Qed.

Lemma contains_false_cut sep s : contains sep s = false <-> cut sep s = None.
Proof.
  split; intros H.
  - destruct (cut sep s) as [[b a]|] eqn:E; [|reflexivity].
    assert (contains sep s = true) by (apply contains_cut; eauto). congruence.
  - destruct (contains sep s) eqn:E; [|reflexivity].
    apply contains_cut in E. destruct E as (b & a & E). congruence.
Qed.

(** The segments of a split end with a segment free of the separator; when
    there are several, the text ends with the separator and that segment. *)
Lemma split_from_last c sep' s :
  exists front name,
    split_from c sep' s = front ++ [name] /\
    contains (String c sep') name = false /\
    (front = [] -> name = s) /\
    (front <> [] -> exists p, s = (p ++ String c sep' ++ name)%string).
Proof.
  funelim (split_from c sep' s).
  - destruct H as (front & name & Hs & Hn & Hnil & Hcons).
    exists (b :: front), name. rewrite Hs. repeat split; auto.
    + discriminate.
    + intros _. pose proof (cut_Some _ _ _ _ e) as Hcut.
      destruct front as [|f front].
      * rewrite (Hnil eq_refl). exists b. exact Hcut.
      * destruct Hcons as (p & Hp); [discriminate|].
        exists (b ++ String c sep' ++ p)%string. rewrite Hcut, Hp.
        rewrite !append_assoc. simpl. rewrite ?append_assoc. reflexivity.
  - exists [], s. repeat split; auto.
    + now apply contains_false_cut.
    + congruence.
Qed.


Lemma last_item_app {A : Type} (xs : list A) (x : A) :
  last_item (xs ++ [x]) = inr x.
Proof.
  induction xs as [|y xs IH]; [reflexivity|].
  simpl. destruct (xs ++ [x]) eqn:E; [destruct xs; discriminate | exact IH].
Qed.

(** The loop body never raises on a text header. *)
Lemma course_name_text (h : string) : exists name, course_name (LStr h) = inr name.
Proof.
  unfold course_name, SEP, split. destruct (contains _ h); [|eauto].
  destruct (split_from_last " " "- " h) as (front & name & -> & _).
  cbn [bind_exn]. rewrite last_item_app. eauto.
Qed.


(* ===================================================================== *)
(** * The sort *)
(* ===================================================================== *)

Lemma num_compare_antisym x y : num_compare y x = CompOpp (num_compare x y).
Proof.
  destruct x as [a| |], y as [b| |]; simpl; try reflexivity.
  now rewrite <- Qcompare_antisym.
Qed.

Lemma num_compare_refl x : num_compare x x = Eq.
Proof. destruct x as [a| |]; simpl; try reflexivity. now apply Qeq_alt. Qed.

Lemma num_compare_Eq_l x y z :
  num_compare x y = Eq -> num_compare x z = num_compare y z.
Proof.
  destruct x as [a| |], y as [b| |], z as [c| |]; simpl; try congruence.
  intros H. apply Qeq_alt in H. now rewrite H.
Qed.

Lemma num_compare_Lt_trans x y z :
  num_compare x y = Lt -> num_compare y z = Lt -> num_compare x z = Lt.
Proof.
  destruct x as [a| |], y as [b| |], z as [c| |]; simpl; try congruence.
  rewrite <- !Qlt_alt. apply Qlt_trans.
Qed.

Lemma num_compare_Lt x y : num_compare x y = Lt <-> num_lt x y.
Proof.
  destruct x as [a| |], y as [b| |]; simpl;
    first [ symmetry; apply Qlt_alt
          | split; [discriminate | tauto]
          | tauto ].
Qed.

Lemma num_compare_Eq x y : num_compare x y = Eq <-> num_eq x y.
Proof.
  destruct x as [a| |], y as [b| |]; simpl;
    first [ symmetry; apply Qeq_alt
          | split; [discriminate | tauto]
          | tauto ].
Qed.

Lemma avg_compare_antisym a b : avg_compare b a = CompOpp (avg_compare a b).
Proof.
  destruct a as [x|], b as [y|]; simpl; try reflexivity.
  apply num_compare_antisym.
Qed.

Lemma key_compare_antisym a b : key_compare b a = CompOpp (key_compare a b).
Proof.
  unfold key_compare. rewrite (avg_compare_antisym (AverageRating a)).
  destruct (avg_compare (AverageRating a) (AverageRating b)); simpl; try reflexivity.
  apply Nat.compare_antisym.
Qed.

Lemma key_leb_total a b : key_leb a b = false -> key_leb b a = true.
Proof.
  unfold key_leb. rewrite (key_compare_antisym a b).
  destruct (key_compare a b); simpl; congruence.
Qed.

Lemma avg_compare_Eq_l a b c :
  avg_compare a b = Eq -> avg_compare a c = avg_compare b c.
Proof.
  destruct a as [x|], b as [y|], c as [z|]; simpl; try congruence.
  apply num_compare_Eq_l.
Qed.

Lemma key_compare_Eq_l a b c :
  key_compare a b = Eq -> key_compare a c = key_compare b c.
Proof.
  unfold key_compare. intros H.
  destruct (avg_compare (AverageRating a) (AverageRating b)) eqn:E; try discriminate.
  apply Nat.compare_eq in H.
  rewrite (avg_compare_Eq_l _ _ _ E), H. reflexivity.
Qed.

Lemma insert_row_sorted x l : sorted_rows l -> sorted_rows (insert_row x l).
Proof.
  induction 1 as [|y|y z l Hyz Hs IH]; simpl.
  - constructor.
  - destruct (key_leb x y) eqn:E; constructor; auto using sorted_rows, key_leb_total.
  - destruct (key_leb x y) eqn:E.
    + constructor; auto. constructor; auto.
    + simpl in IH. destruct (key_leb x z) eqn:E'.
      * constructor; [now apply key_leb_total|]. exact IH.
      * constructor; auto.
Qed.

Lemma sort_values_sorted l : sorted_rows (sort_values l).
Proof. induction l; simpl; [constructor | now apply insert_row_sorted]. Qed.

Lemma insert_row_perm x l : Permutation (x :: l) (insert_row x l).
Proof.
  induction l as [|y l IH]; simpl; [reflexivity|].
  destruct (key_leb x y); [reflexivity|].
  rewrite perm_swap. now constructor.
Qed.

Lemma sort_values_perm l : Permutation l (sort_values l).
Proof.
  induction l as [|x l IH]; simpl; [constructor|].
  rewrite <- insert_row_perm. now constructor.
Qed.

Lemma insert_row_stable k x l :
  filter (same_key k) (insert_row x l) = filter (same_key k) (x :: l).
Proof.
  induction l as [|y l IH]; [reflexivity|].
  cbn [insert_row]. destruct (key_leb x y) eqn:E; [reflexivity|].
  cbn [filter] in *. rewrite IH.
  destruct (same_key k x) eqn:Ex; [|reflexivity].
  assert (same_key k y = false) as ->; [|reflexivity].
  unfold same_key, key_leb in *.
  destruct (key_compare k x) eqn:Ekx; try discriminate.
  rewrite (key_compare_Eq_l _ _ y Ekx).
  destruct (key_compare x y); congruence.
Qed.

Lemma sort_values_stable k l :
  filter (same_key k) (sort_values l) = filter (same_key k) l.
Proof.
  induction l as [|x l IH]; [reflexivity|].
  cbn [sort_values]. rewrite insert_row_stable. cbn [filter]. now rewrite IH.
Qed.

Lemma sorted_rows_adjacent l a b :
  sorted_rows l -> adjacent l a b -> key_leb a b = true.
Proof.
  intros Hs (l1 & l2 & ->). induction l1 as [|x l1 IH]; simpl in Hs.
  - now inversion Hs.
  - apply IH. inversion Hs; subst; auto. destruct l1; discriminate.
Qed.

Lemma key_leb_ranked a b x y :
  AverageRating a = Some x -> AverageRating b = Some y ->
  key_leb a b = true -> ranked_before a b.
Proof.
  unfold key_leb, key_compare, ranked_before. intros -> ->. simpl.
  destruct (num_compare x y) eqn:E.
  - apply num_compare_Eq in E. intros H. right. split; [exact E|].
    destruct (Nat.compare_spec (Count b) (Count a)); try discriminate; lia.
  - apply num_compare_Lt in E. auto.
  - discriminate.
Qed.

Lemma avg_compare_refl a : avg_compare a a = Eq.
Proof. destruct a as [x|]; simpl; [apply num_compare_refl | reflexivity]. Qed.

Lemma key_compare_refl a : key_compare a a = Eq.
Proof. unfold key_compare. rewrite avg_compare_refl. apply Nat.compare_refl. Qed.

Lemma avg_compare_Eq_r a b c :
  avg_compare b c = Eq -> avg_compare a b = avg_compare a c.
Proof.
  intros H. rewrite (avg_compare_antisym b a), (avg_compare_antisym c a).
  f_equal. now apply avg_compare_Eq_l.
Qed.

Lemma avg_compare_Lt_trans a b c :
  avg_compare a b = Lt -> avg_compare b c = Lt -> avg_compare a c = Lt.
Proof.
  destruct a as [x|], b as [y|], c as [z|]; simpl; try congruence.
  apply num_compare_Lt_trans.
Qed.

Lemma key_compare_Eq_r a b c :
  key_compare b c = Eq -> key_compare a b = key_compare a c.
Proof.
  intros H. rewrite (key_compare_antisym b a), (key_compare_antisym c a).
  f_equal. now apply key_compare_Eq_l.
Qed.

Lemma key_compare_Lt_trans a b c :
  key_compare a b = Lt -> key_compare b c = Lt -> key_compare a c = Lt.
Proof.
  unfold key_compare.
  destruct (avg_compare (AverageRating a) (AverageRating b)) eqn:Eab;
    try discriminate;
    destruct (avg_compare (AverageRating b) (AverageRating c)) eqn:Ebc;
    try discriminate; intros Hab Hbc.
  - rewrite (avg_compare_Eq_l _ _ _ Eab), Ebc.
    apply Nat.compare_lt_iff in Hab, Hbc. apply Nat.compare_lt_iff. lia.
  - now rewrite (avg_compare_Eq_l _ _ _ Eab), Ebc.
  - now rewrite <- (avg_compare_Eq_r _ _ _ Ebc), Eab.
  - now rewrite (avg_compare_Lt_trans _ _ _ Eab Ebc).
Qed.

Lemma key_leb_trans a b c :
  key_leb a b = true -> key_leb b c = true -> key_leb a c = true.
Proof.
  unfold key_leb.
  destruct (key_compare a b) eqn:Eab; try discriminate;
    destruct (key_compare b c) eqn:Ebc; try discriminate; intros _ _.
  - now rewrite (key_compare_Eq_l _ _ _ Eab), Ebc.
  - now rewrite (key_compare_Eq_l _ _ _ Eab), Ebc.
  - now rewrite <- (key_compare_Eq_r _ _ _ Ebc), Eab.
  - now rewrite (key_compare_Lt_trans _ _ _ Eab Ebc).
Qed.

Lemma sorted_rows_tail x l : sorted_rows (x :: l) -> sorted_rows l.
Proof. inversion 1; subst; [constructor | assumption]. Qed.

Lemma sorted_rows_head x l y :
  sorted_rows (x :: l) -> In y l -> key_leb x y = true.
Proof.
  revert x; induction l as [|z l IH]; intros x Hs Hy; [destruct Hy|].
  inversion Hs; subst. destruct Hy as [->|Hy]; [assumption|].
  eapply key_leb_trans; [eassumption|]. now apply IH.
Qed.

Lemma same_key_refl a : same_key a a = true.
Proof. unfold same_key. now rewrite key_compare_refl. Qed.

Lemma filter_same_key_In k x l :
  In x (filter (same_key k) l) -> In x l.
Proof. intros H. apply filter_In in H. tauto. Qed.

(** Two sorted lists that agree on the order within every class of equal
    keys are the same list: the stable sort of a list is unique. *)
Lemma stable_sort_unique l1 l2 :
  sorted_rows l1 -> sorted_rows l2 ->
  (forall k, filter (same_key k) l1 = filter (same_key k) l2) ->
  l1 = l2.
Proof.
  revert l2; induction l1 as [|x l1 IH]; intros l2 H1 H2 Hst.
  - destruct l2 as [|y l2]; [reflexivity|].
    specialize (Hst y). cbn [filter] in Hst. rewrite same_key_refl in Hst.
    discriminate.
  - destruct l2 as [|y l2].
    + specialize (Hst x). cbn [filter] in Hst. rewrite same_key_refl in Hst.
      discriminate.
    + assert (Hxy : x = y).
      { pose proof (Hst x) as Hx. cbn [filter] in Hx.
        rewrite same_key_refl in Hx.
        destruct (same_key x y) eqn:Exy; [now inversion Hx|].
        exfalso.
        assert (Hin : In x l2).
        { apply (filter_same_key_In x). rewrite <- Hx. now left. }
        pose proof (sorted_rows_head _ _ _ H2 Hin) as Hyx.
        pose proof (Hst y) as Hy. cbn [filter] in Hy.
        rewrite same_key_refl in Hy.
        assert (Hyx' : same_key y x = false).
        { unfold same_key in *. rewrite (key_compare_antisym x y).
          destruct (key_compare x y); simpl; congruence. }
        rewrite Hyx' in Hy.
        assert (Hin' : In y l1).
        { apply (filter_same_key_In y). rewrite Hy. now left. }
        pose proof (sorted_rows_head _ _ _ H1 Hin') as Hxy.
        unfold key_leb, same_key in *. rewrite (key_compare_antisym x y) in Hyx.
        destruct (key_compare x y); simpl in *; congruence. }
      subst y. f_equal. apply IH.
      * eapply sorted_rows_tail; eauto.
      * eapply sorted_rows_tail; eauto.
      * intros k. specialize (Hst k). cbn [filter] in Hst.
        destruct (same_key k x); [now inversion Hst | assumption].
Qed.

(** Whatever stable sorting algorithm pandas runs, its result is
    [sort_values]. *)
Corollary sort_values_unique l l' :
  sorted_rows l' ->
  (forall k, filter (same_key k) l' = filter (same_key k) l) ->
  l' = sort_values l.
Proof.
  intros Hs Hst. apply stable_sort_unique; auto using sort_values_sorted.
  intros k. now rewrite Hst, sort_values_stable.
Qed.

(* ===================================================================== *)
(** * Cleaning and statistics *)
(* ===================================================================== *)

Lemma selected_rows_width df : Forall (fun r => length r = 8) (selected_rows df).
Proof.
  unfold selected_rows. apply Forall_forall. intros r Hr.
  apply in_map_iff in Hr. destruct Hr as (r0 & <- & _). reflexivity.
Qed.

Lemma forallb_map_comp {A B : Type} (f : B -> bool) (g : A -> B) (l : list A) :
  forallb f (map g l) = forallb (fun x => f (g x)) l.
Proof. induction l as [|x l IH]; simpl; [reflexivity | now rewrite IH]. Qed.

Lemma cleaned_rows parser names df :
  rows (cleaned parser names df) =
  map (map (to_numeric parser))
      (filter (forallb (numeric parser)) (selected_rows df)).
Proof.
  unfold cleaned, coerced, dropna, apply_to_numeric. cbn [rows columns].
  induction (selected_rows df) as [|r rs IH]; [reflexivity|].
  cbn [map filter]. rewrite forallb_map_comp. fold (numeric parser).
  destruct (forallb _ r); cbn [map]; now rewrite IH.
Qed.

Lemma cleaned_complete parser names df :
  Forall (complete 8) (rows (cleaned parser names df)).
Proof.
  rewrite cleaned_rows. apply Forall_forall. intros r Hr.
  apply in_map_iff in Hr. destruct Hr as (r0 & <- & Hr0).
  apply filter_In in Hr0. destruct Hr0 as [Hin Hnum].
  split.
  - rewrite length_map.
    exact (proj1 (Forall_forall _ _) (selected_rows_width df) _ Hin).
  - rewrite forallb_map_comp. exact Hnum.
Qed.

Lemma complete_nth n r j :
  complete n r -> j < n -> exists q, nth j r None = Some q.
Proof.
  intros [Hlen Hall] Hj. rewrite forallb_forall in Hall.
  assert (Hin : In (nth j r None) r) by (apply nth_In; lia).
  specialize (Hall _ Hin). destruct (nth j r None); [eauto | discriminate].
Qed.

(** A column of complete rows holds a number in every row. *)
Lemma column_complete {L : Type} (data : Frame L (option num)) n j :
  Forall (complete n) (rows data) -> j < n ->
  exists vs, column_at data j = map Some vs /\ length vs = len data.
Proof.
  unfold column_at, len. intros H Hj.
  induction H as [|r rs Hr _ IH].
  - exists []. split; reflexivity.
  - destruct IH as (vs & Hvs & Hl).
    destruct (complete_nth _ _ _ Hr Hj) as (q & Hq).
    exists (q :: vs). cbn [map length]. rewrite Hq, Hvs, Hl. split; reflexivity.
Qed.

Lemma present_Some vs : present (map Some vs) = vs.
Proof. induction vs as [|v vs IH]; simpl; [reflexivity | now rewrite IH]. Qed.

Lemma series_count_Some vs : series_count (map Some vs) = length vs.
Proof. unfold series_count. now rewrite present_Some. Qed.

Lemma combine_map_both {A B C : Type} (f : A -> B) (g : A -> C) (l : list A) :
  combine (map f l) (map g l) = map (fun x => (f x, g x)) l.
Proof. induction l as [|x l IH]; simpl; [reflexivity | now rewrite IH]. Qed.

Lemma presort_rows parser fp names df :
  presort parser fp names df =
  map (fun jc => mkRow (snd jc)
                   (series_mean fp (column_at (cleaned parser names df) (fst jc)))
                   (series_count (column_at (cleaned parser names df) (fst jc))))
      (enumerate names).
Proof.
  unfold presort, stats_frame, frame_mean, frame_count.
  change (columns (cleaned parser names df)) with names.
  rewrite combine_map_both, map_map. reflexivity.
Qed.

Lemma enumerate_from (names : list string) a :
  combine (seq a (length names)) names =
  map (fun j => (j, nth (j - a) names EmptyString)) (seq a (length names)).
Proof.
  revert a; induction names as [|x names IH]; intros a; [reflexivity|].
  cbn [length seq combine map]. rewrite Nat.sub_diag. cbn [nth]. f_equal.
  rewrite IH. apply map_ext_in. intros j Hj. apply in_seq in Hj.
  replace (j - a) with (S (j - S a)) by lia. reflexivity.
Qed.

Lemma presort_per_course parser fp names df :
  length names = 8 ->
  presort parser fp names df = per_course fp names (cleaned parser names df).
Proof.
  intros Hlen. rewrite presort_rows. unfold enumerate, per_course.
  rewrite enumerate_from, Hlen, map_map. apply map_ext. intros j.
  cbn [fst snd]. now rewrite Nat.sub_0_r.
Qed.

(* ===================================================================== *)
(** * The exceptions of the labelling steps *)
(* ===================================================================== *)

Section MapExn.
Context {A B : Type} (f : A -> exn + B).

Lemma map_exn_length xs ys : map_exn f xs = inr ys -> length ys = length xs.
Proof.
  revert ys; induction xs as [|x xs IH]; intros ys H; simpl in H.
  - inversion H; reflexivity.
  - destruct (f x); [discriminate|]. simpl in H.
    destruct (map_exn f xs); [discriminate|].
    simpl in H. inversion H; subst. simpl. f_equal. now apply IH.
Qed.

Lemma map_exn_ok xs :
  (forall x, In x xs -> exists y, f x = inr y) -> exists ys, map_exn f xs = inr ys.
Proof.
  induction xs as [|x xs IH]; intros H; simpl; [eauto|].
  destruct (H x (or_introl eq_refl)) as (y & ->).
  destruct IH as (ys & ->); [intros; apply H; now right|].
  simpl. eauto.
Qed.

Lemma map_exn_error xs e :
  map_exn f xs = inl e -> exists x, In x xs /\ f x = inl e.
Proof.
  induction xs as [|x xs IH]; simpl; [discriminate|].
  destruct (f x) as [e'|y] eqn:E; simpl.
  - intros H; inversion H; subst. eauto.
  - destruct (map_exn f xs) as [e'|ys]; simpl; [|discriminate].
    intros H; inversion H; subst. destruct (IH eq_refl) as (x' & Hin & Hx').
    eauto.
Qed.

Lemma map_exn_fails xs x e :
  In x xs -> f x = inl e -> exists e', map_exn f xs = inl e'.
Proof.
  induction xs as [|x' xs IH]; simpl; [tauto|].
  intros [->|Hin] Hx.
  - rewrite Hx. simpl. eauto.
  - destruct (f x'); simpl; [eauto|].
    destruct (IH Hin Hx) as (e' & ->). simpl. eauto.
Qed.

Lemma map_exn_In xs ys x y :
  map_exn f xs = inr ys -> In x xs -> f x = inr y -> In y ys.
Proof.
  revert ys; induction xs as [|x' xs IH]; intros ys H; simpl in *; [tauto|].
  destruct (f x') as [|y'] eqn:E; [discriminate|]. simpl in H.
  destruct (map_exn f xs) as [|ys']; [discriminate|]. simpl in H.
  inversion H; subst. intros [->|Hin] Hx.
  - left. congruence.
  - right. eapply IH; eauto.
Qed.

Lemma map_exn_from xs ys y :
  map_exn f xs = inr ys -> In y ys -> exists x, In x xs /\ f x = inr y.
Proof.
  revert ys; induction xs as [|x' xs IH]; intros ys H; simpl in *.
  - inversion H; subst. simpl. tauto.
  - destruct (f x') as [|y'] eqn:E; [discriminate|]. simpl in H.
    destruct (map_exn f xs) as [|ys']; [discriminate|]. simpl in H.
    inversion H; subst. intros [->|Hin]; [eauto|].
    destruct (IH _ eq_refl Hin) as (x & Hx & Hf). eauto.
Qed.
End MapExn.

Lemma labels_of_tcols (df : DataFrame) names :
  labels_of df = inr names ->
  exists tcols, take_positions (columns df) target_cols_indices = inr tcols /\
                course_names_of tcols = inr names.
Proof.
  unfold labels_of.
  destruct (take_positions _ _) as [e|tcols]; simpl; [discriminate | eauto].
Qed.

Lemma labels_of_length df names : labels_of df = inr names -> length names = 8.
Proof.
  intros H. apply labels_of_tcols in H. destruct H as (tcols & H1 & H2).
  apply map_exn_length in H1, H2. rewrite H2, H1. reflexivity.
Qed.

Lemma course_names_error tcols e : course_names_of tcols = inl e -> e = TypeError.
Proof.
  intros H. apply map_exn_error in H. destruct H as ([h|n] & _ & H).
  - destruct (course_name_text h) as (name & Hn). congruence.
  - simpl in H. congruence.
Qed.

Lemma labels_of_short df :
  length (columns df) < 19 -> labels_of df = inl IndexError.
Proof.
  intros Hlen. unfold labels_of, take_positions.
  destruct (map_exn_fails
              (fun i => match nth_error (columns df) i with
                        | Some x => inr x | None => inl IndexError end)
              target_cols_indices 18 IndexError) as (e & He).
  - unfold target_cols_indices. apply in_seq. lia.
  - destruct (nth_error (columns df) 18) eqn:E; [|reflexivity].
    assert (18 < length (columns df)) by (apply nth_error_Some; congruence). lia.
  - rewrite He. simpl. f_equal.
    apply map_exn_error in He. destruct He as (i & _ & Hi).
    destruct (nth_error (columns df) i); congruence.
Qed.

Lemma take_positions_wide (df : DataFrame) :
  19 <= length (columns df) ->
  exists tcols, take_positions (columns df) target_cols_indices = inr tcols.
Proof.
  intros Hlen. apply map_exn_ok. intros i Hi.
  unfold target_cols_indices in Hi. apply in_seq in Hi.
  destruct (nth_error (columns df) i) eqn:E; [eauto|].
  apply nth_error_None in E. lia.
Qed.

Lemma labels_of_non_text df i n :
  19 <= length (columns df) -> 11 <= i < 19 ->
  nth_error (columns df) i = Some (LNum n) ->
  labels_of df = inl TypeError.
Proof.
  intros Hlen Hi Hn. unfold labels_of.
  destruct (take_positions_wide df Hlen) as (tcols & Ht). rewrite Ht. simpl.
  assert (Hin : In (LNum n) tcols).
  { eapply map_exn_In; [exact Ht | | cbv beta; now rewrite Hn].
    unfold target_cols_indices. apply in_seq. lia. }
  destruct (map_exn_fails course_name tcols (LNum n) TypeError Hin eq_refl)
    as (e & He).
  unfold course_names_of. rewrite He. f_equal. now apply course_names_error in He.
Qed.

Lemma labels_of_valid df :
  19 <= length (columns df) ->
  (forall i, 11 <= i < 19 -> exists h, nth_error (columns df) i = Some (LStr h)) ->
  exists names, labels_of df = inr names.
Proof.
  intros Hlen Htext. unfold labels_of.
  destruct (take_positions_wide df Hlen) as (tcols & Ht). rewrite Ht. simpl.
  apply map_exn_ok. intros col Hcol.
  destruct (map_exn_from _ _ _ _ Ht Hcol) as (i & Hi & Hpick).
  unfold target_cols_indices in Hi. apply in_seq in Hi.
  destruct (Htext i) as (h & Hh); [lia|].
  rewrite Hh in Hpick. inversion Hpick; subst. apply course_name_text.
Qed.

(* ===================================================================== *)
(** * Runs of [main] *)
(* ===================================================================== *)

Lemma bind_ok {A B : Type} (m : M A) (k : A -> M B) w a w' :
  m w = (inr a, w') -> bind m k w = k a w'.
Proof. intros H. unfold bind. now rewrite H. Qed.

Ltac state_step :=
  cbn [stdout files dirs figure gcf figsize bars bar_color xlabel ylabel
       title grid_axis texts tight empty_figure app].

Ltac run_step := erewrite bind_ok by reflexivity; state_step.

Lemma for_each_text (f : Bar -> Annotation) (bs : list Bar)
    out fl ds sz b c x y ti g tx tg :
  for_each bs (fun bar => plt_text (f bar))
    (mkWorld out fl ds (Some (mkFigure sz b c x y ti g tx tg))) =
  (inr tt,
   mkWorld out fl ds (Some (mkFigure sz b c x y ti g (tx ++ map f bs) tg))).
Proof.
  revert tx; induction bs as [|b0 bs IH]; intros tx.
  - cbn. now rewrite app_nil_r.
  - cbn [for_each]. run_step. rewrite IH. cbn [map]. now rewrite <- app_assoc.
Qed.

Lemma bars_of_rows (l : list RankingRow) :
  map (fun yw => mkBar (fst yw) (snd yw))
      (combine (map Course l) (map AverageRating l)) = map row_bar l.
Proof. rewrite combine_map_both, map_map. reflexivity. Qed.

(** With the course names found, the rest of [main] runs to its end. *)
Lemma main_body_success parser fp sheet df others names w :
  labels_of df = inr names ->
  main_body parser fp ((sheet, df) :: others) w =
  (inr tt,
   mkWorld
     (stdout w ++
      [TextList "Identified courses:" names;
       Text (cleaning_report (len (coerced parser names df))
                             (len (cleaned parser names df)));
       Text "Ranking calculated:";
       Table (ranking parser fp names df);
       Text "Saved ranking to results/program_ranking.csv";
       Text "Saved plot to results/program_ranking.png"])
     ((png_path, PngFile (chart fp (ranking parser fp names df)))
      :: (csv_path, CsvFile csv_header (ranking parser fp names df)) :: files w)
     (if existsb (String.eqb output_dir) (dirs w)
      then dirs w else output_dir :: dirs w)
     (Some (chart fp (ranking parser fp names df)))).
Proof.
  intros Hl. pose proof (labels_of_length _ _ Hl) as Hlen.
  destruct (labels_of_tcols _ _ Hl) as (tcols & Ht & Hn).
  unfold main_body.
  unfold bind at 1. cbn [lift sheet_names map fst first_item].
  unfold bind at 1. unfold parse. cbn [lookup]. rewrite String.eqb_refl.
  cbn [lift].
  unfold bind at 1. cbn [lift]. rewrite Ht.
  unfold bind at 1. cbn [lift]. rewrite Hn.
  unfold bind at 1. cbn [print].
  unfold bind at 1. cbn [lift]. unfold iloc_from. rewrite Ht. cbn [bind_exn].
  unfold bind at 1. cbn [lift]. unfold set_columns. cbn [columns rows].
  rewrite Hlen. apply map_exn_length in Ht. rewrite Ht.
  change (length target_cols_indices) with 8. cbn [Nat.eqb].
  fold (selected_rows df). fold (coerced parser names df).
  fold (cleaned parser names df).
  fold (presort parser fp names df). fold (ranking parser fp names df).
  fold (cleaning_report (len (coerced parser names df))
                        (len (cleaned parser names df))).
  generalize (ranking parser fp names df) as t.
  generalize (cleaning_report (len (coerced parser names df))
                              (len (cleaned parser names df))) as line.
  intros line t.
  repeat run_step.
  rewrite bars_of_rows.
  erewrite bind_ok by apply for_each_text.
  repeat run_step.
  unfold print. state_step. rewrite <- !app_assoc. reflexivity.
Qed.

(** An exception of the labelling steps ends [main] before it prints or
    writes anything more. *)
Lemma main_body_failure parser fp sheet df others e w :
  labels_of df = inl e ->
  main_body parser fp ((sheet, df) :: others) w = (inl e, w).
Proof.
  intros Hl. unfold main_body.
  unfold bind at 1. cbn [lift sheet_names map fst first_item].
  unfold bind at 1. unfold parse. cbn [lookup]. rewrite String.eqb_refl.
  cbn [lift]. unfold labels_of in Hl.
  unfold bind at 1. cbn [lift].
  destruct (take_positions (columns df) target_cols_indices) as [e'|tcols].
  - simpl in Hl. congruence.
  - simpl in Hl. unfold bind at 1. cbn [lift]. now rewrite Hl.
Qed.

Lemma first_sheet_book fs df :
  first_sheet fs = Some df ->
  exists sheet others,
    lookup file_path fs = Some (ExcelBook ((sheet, df) :: others)).
Proof.
  unfold first_sheet. destruct (lookup file_path fs) as [[[|[sheet df'] others]| | |]|];
    try discriminate.
  intros H; inversion H; subst. eauto.
Qed.

Lemma run_open parser fp fs ds xl :
  lookup file_path fs = Some (ExcelBook xl) ->
  run parser fp fs ds = main_body parser fp xl (failed_world fs ds).
Proof.
  intros H. unfold run, main.
  unfold bind at 1. cbn [print stdout files dirs figure app].
  unfold bind at 1. unfold try_except, ExcelFile. cbn [files]. rewrite H.
  reflexivity.
Qed.

Lemma run_success parser fp fs ds df names :
  first_sheet fs = Some df -> labels_of df = inr names ->
  run parser fp fs ds =
  (inr tt,
   success_world fp fs ds names (len (coerced parser names df))
     (len (cleaned parser names df)) (ranking parser fp names df)).
Proof.
  intros Hs Hl. destruct (first_sheet_book _ _ Hs) as (sheet & others & Hb).
  rewrite (run_open _ _ _ _ _ Hb).
  rewrite (main_body_success _ _ _ _ _ _ _ Hl). reflexivity.
Qed.

Lemma run_failure parser fp fs ds df e :
  first_sheet fs = Some df -> labels_of df = inl e ->
  run parser fp fs ds = (inl e, failed_world fs ds).
Proof.
  intros Hs Hl. destruct (first_sheet_book _ _ Hs) as (sheet & others & Hb).
  rewrite (run_open _ _ _ _ _ Hb). now apply main_body_failure.
Qed.

Lemma run_missing parser fp fs ds :
  lookup file_path fs = None ->
  run parser fp fs ds = (inr tt, mkWorld [loading_line; not_found_line] fs ds None).
Proof.
  intros H. unfold run, main.
  unfold bind at 1. cbn [print stdout files dirs figure app].
  unfold bind at 1. unfold try_except, ExcelFile. cbn [files]. rewrite H.
  reflexivity.
Qed.

Lemma run_not_excel parser fp fs ds f :
  lookup file_path fs = Some f -> (forall xl, f <> ExcelBook xl) ->
  run parser fp fs ds = (inl (OtherError "not an Excel workbook"), failed_world fs ds).
Proof.
  intros H Hf. unfold run, main.
  unfold bind at 1. cbn [print stdout files dirs figure app].
  unfold bind at 1. unfold try_except, ExcelFile. cbn [files]. rewrite H.
  destruct f; try reflexivity. now destruct (Hf wb).
Qed.

Lemma run_no_sheet parser fp fs ds :
  lookup file_path fs = Some (ExcelBook []) ->
  run parser fp fs ds = (inl IndexError, failed_world fs ds).
Proof. intros H. rewrite (run_open _ _ _ _ _ H). reflexivity. Qed.

(* ===================================================================== *)
(** * The ranking of a run *)
(* ===================================================================== *)

Lemma adjacent_In {A : Type} (l : list A) (a b : A) :
  adjacent l a b -> In a l /\ In b l.
Proof.
  intros (l1 & l2 & ->). split; apply in_or_app; right; simpl; auto.
Qed.

Lemma ranking_perm parser fp names df :
  length names = 8 ->
  Permutation (per_course fp names (cleaned parser names df))
              (ranking parser fp names df).
Proof.
  intros Hlen. unfold ranking. rewrite (presort_per_course _ _ _ _ Hlen).
  apply sort_values_perm.
Qed.

Lemma per_course_names fp names data :
  length names = 8 -> map Course (per_course fp names data) = names.
Proof.
  intros Hlen. unfold per_course. rewrite map_map. cbn [Course].
  do 9 (destruct names as [|? names]; try discriminate). reflexivity.
Qed.

(** Every row of the statistics is the mean and the count of a column in
    which each surviving row holds one number. *)
Lemma per_course_row parser fp names df r :
  In r (per_course fp names (cleaned parser names df)) ->
  exists j vs,
    j < 8 /\ Course r = nth j names EmptyString /\
    column_at (cleaned parser names df) j = map Some vs /\
    length vs = len (cleaned parser names df) /\
    AverageRating r = series_mean fp (map Some vs) /\
    Count r = length vs.
Proof.
  unfold per_course. intros Hr. apply in_map_iff in Hr.
  destruct Hr as (j & <- & Hj). apply in_seq in Hj.
  destruct (column_complete (cleaned parser names df) 8 j) as (vs & Hvs & Hl);
    [apply cleaned_complete | lia |].
  exists j, vs. cbn [Course AverageRating Count]. rewrite Hvs.
  repeat split; auto; [lia | apply series_count_Some].
Qed.

Lemma ranking_row parser fp names df r :
  length names = 8 -> In r (ranking parser fp names df) ->
  Count r = len (cleaned parser names df) /\
  (len (cleaned parser names df) = 0 -> AverageRating r = None).
Proof.
  intros Hlen Hr.
  apply (Permutation_in _ (Permutation_sym (ranking_perm parser fp _ df Hlen))) in Hr.
  destruct (per_course_row _ _ _ _ _ Hr) as (j & vs & _ & _ & _ & Hl & Ha & Hc).
  rewrite Ha, Hc, <- Hl. split; [reflexivity|].
  destruct vs; [reflexivity | discriminate].
Qed.

(** C6. When the input file does not exist the program prints the loading
    line and the error message and returns normally; the file system is
    as it was (no CSV, no chart, no directory created) and no figure was
    opened. *)
Theorem missing_file_no_outputs parser fp fs ds :
  lookup file_path fs = None ->
  run parser fp fs ds =
  (inr tt,
   mkWorld
     [Text "Loading data from Grad Program Exit Survey Data 2024.xlsx...";
      Text "Error: File Grad Program Exit Survey Data 2024.xlsx not found."]
     fs ds None).
Proof. apply run_missing. Qed.

Lemma missing_file_witness :
  lookup file_path [("notes.txt", OtherFile)] = None /\
  run Sample.digits Binary64.arith [("notes.txt", OtherFile)] [] =
  (inr tt,
   mkWorld
     [Text "Loading data from Grad Program Exit Survey Data 2024.xlsx...";
      Text "Error: File Grad Program Exit Survey Data 2024.xlsx not found."]
     [("notes.txt", OtherFile)] [] None).
Proof.
  split; [reflexivity|].
  apply (missing_file_no_outputs Sample.digits Binary64.arith [("notes.txt", OtherFile)] []).
  reflexivity.
Defined.

(** C9. The bars handed to the chart, as (course, value) pairs, are the
    rows of the ranking table in reverse order; bars are drawn from the
    bottom upwards, so the last bar, at the top, is the best-ranked
    course. *)
Theorem chart_reverses_ranking parser fp fs ds df names :
  first_sheet fs = Some df -> labels_of df = inr names ->
  exists t fig w,
    run parser fp fs ds = (inr tt, w) /\
    printed_table (stdout w) = Some t /\
    lookup png_path (files w) = Some (PngFile fig) /\
    map (fun b => (bar_label b, bar_width b)) (bars fig) =
      rev (map (fun r => (Course r, AverageRating r)) t) /\
    (forall best others, t = best :: others ->
       exists below,
         bars fig = below ++ [mkBar (Course best) (AverageRating best)]).
Proof.
  intros Hs Hl. eexists _, _, _.
  split; [apply (run_success parser fp _ ds _ _ Hs Hl)|].
  split; [reflexivity|]. split; [reflexivity|].
  cbn [chart bars]. split.
  - rewrite map_map, <- map_rev. reflexivity.
  - intros best others ->. cbn [rev]. rewrite map_app.
    exists (map row_bar (rev others)). reflexivity.
Qed.

Lemma chart_reverses_witness :
  exists t fig w,
    run Sample.digits Binary64.arith (Sample.disk Sample.survey) [] = (inr tt, w) /\
    printed_table (stdout w) = Some t /\
    lookup png_path (files w) = Some (PngFile fig) /\
    map (fun b => (bar_label b, bar_width b)) (bars fig) =
      rev (map (fun r => (Course r, AverageRating r)) t) /\
    (forall best others, t = best :: others ->
       exists below,
         bars fig = below ++ [mkBar (Course best) (AverageRating best)]).
Proof.
  apply (chart_reverses_ranking Sample.digits Binary64.arith (Sample.disk Sample.survey) []
           Sample.survey
           ["Taxation"; "Audit"; "Finance"; "Law"; "Data Analytics";
            "Research"; "Strategy"; "Ethics"]).
  - reflexivity.
  - vm_compute. reflexivity.
Defined.

(** C10. Every row of the ranking table carries the same Count: the number
    of rows that survive cleaning, which is the final row count of the
    cleaning report. *)
Theorem counts_all_equal parser fp fs ds df names :
  first_sheet fs = Some df -> labels_of df = inr names ->
  exists t w,
    run parser fp fs ds = (inr tt, w) /\
    printed_table (stdout w) = Some t /\
    length t = 8 /\
    Forall (fun r => Count r = len (cleaned parser names df)) t /\
    In (Text (cleaning_report (length (selected_rows df))
                              (len (cleaned parser names df))))
       (stdout w).
Proof.
  intros Hs Hl. pose proof (labels_of_length _ _ Hl) as Hlen.
  eexists _, _.
  split; [apply (run_success parser fp _ ds _ _ Hs Hl)|].
  split; [reflexivity|]. split; [|split].
  - rewrite <- (Permutation_length (ranking_perm parser fp _ df Hlen)).
    unfold per_course. now rewrite length_map, length_seq.
  - apply Forall_forall. intros r Hr.
    now apply (ranking_row parser fp names df r Hlen).
  - cbn [success_world stdout]. right. right. left.
    unfold coerced, apply_to_numeric, len. cbn [rows].
    now rewrite length_map.
Qed.

Lemma counts_all_equal_witness :
  exists t w,
    run Sample.digits Binary64.arith (Sample.disk Sample.survey) [] = (inr tt, w) /\
    printed_table (stdout w) = Some t /\
    length t = 8 /\
    Forall (fun r => Count r = 8) t /\
    In (Text "Data cleaning: 10 rows -> 8 rows (dropped 2 rows with missing values).")
       (stdout w).
Proof.
  apply (counts_all_equal Sample.digits Binary64.arith (Sample.disk Sample.survey) []
           Sample.survey
           ["Taxation"; "Audit"; "Finance"; "Law"; "Data Analytics";
            "Research"; "Strategy"; "Ethics"]).
  - reflexivity.
  - vm_compute. reflexivity.
Defined.

(** C4. For a valid input (a workbook whose first sheet has at least 19
    columns with text headers at positions 11-18) the program runs to its
    end and the ranking table has exactly 8 rows, as many as the positions
    of the span: one row per course column, the Course entries being the
    derived course names, each once (so one row per distinct name when the
    names are distinct). *)
Theorem ranking_has_eight_rows parser fp fs ds df :
  first_sheet fs = Some df ->
  19 <= length (columns df) ->
  (forall i, 11 <= i < 19 ->
     exists h, nth_error (columns df) i = Some (LStr h)) ->
  exists names t w,
    labels_of df = inr names /\
    run parser fp fs ds = (inr tt, w) /\
    printed_table (stdout w) = Some t /\
    length t = 8 /\
    length t = length target_cols_indices /\
    length names = 8 /\
    Permutation names (map Course t) /\
    (NoDup names -> NoDup (map Course t)).
Proof.
  intros Hs Hwide Htext.
  destruct (labels_of_valid df Hwide Htext) as (names & Hl).
  pose proof (labels_of_length _ _ Hl) as Hlen.
  pose proof (ranking_perm parser fp names df Hlen) as Hperm.
  assert (Hnames : Permutation names (map Course (ranking parser fp names df))).
  { rewrite <- (per_course_names fp names (cleaned parser names df) Hlen) at 1.
    now apply Permutation_map. }
  assert (H8 : length (ranking parser fp names df) = 8).
  { rewrite <- (Permutation_length Hperm).
    unfold per_course. now rewrite length_map, length_seq. }
  exists names. eexists _, _.
  split; [exact Hl|].
  split; [apply (run_success parser fp _ ds _ _ Hs Hl)|].
  split; [reflexivity|].
  repeat split; auto.
  intros Hnd. eapply Permutation_NoDup; eauto.
Qed.

Lemma ranking_has_eight_rows_witness :
  exists names t w,
    labels_of Sample.survey = inr names /\
    run Sample.digits Binary64.arith (Sample.disk Sample.survey) [] = (inr tt, w) /\
    printed_table (stdout w) = Some t /\
    length t = 8 /\
    length t = length target_cols_indices /\
    length names = 8 /\
    Permutation names (map Course t) /\
    (NoDup names -> NoDup (map Course t)).
Proof.
  apply (ranking_has_eight_rows Sample.digits Binary64.arith (Sample.disk Sample.survey) []
           Sample.survey).
  - reflexivity.
  - simpl. lia.
  - intros i Hi.
    assert (Hcases : i = 11 \/ i = 12 \/ i = 13 \/ i = 14 \/
                     i = 15 \/ i = 16 \/ i = 17 \/ i = 18) by lia.
    repeat (destruct Hcases as [-> | Hcases]; [eexists; reflexivity|]).
    subst i. eexists; reflexivity.
Defined.

Lemma selected_rows_below cols r0 body :
  selected_rows (mkFrame cols (r0 :: body)) =
  map (fun r => map (fun i => nth i r CNaN) target_cols_indices) body.
Proof. reflexivity. Qed.

Lemma ranking_below parser fp names cols r0 r0' body :
  ranking parser fp names (mkFrame cols (r0 :: body)) =
  ranking parser fp names (mkFrame cols (r0' :: body)).
Proof.
  unfold ranking, presort, cleaned, coerced. now rewrite !selected_rows_below.
Qed.

Lemma coerced_below parser names cols r0 body :
  len (coerced parser names (mkFrame cols (r0 :: body))) = length body.
Proof.
  unfold coerced, apply_to_numeric, len. rewrite selected_rows_below.
  cbn [rows]. now rewrite !length_map.
Qed.

Lemma cleaned_below parser names cols r0 r0' body :
  cleaned parser names (mkFrame cols (r0 :: body)) =
  cleaned parser names (mkFrame cols (r0' :: body)).
Proof. unfold cleaned, coerced. now rewrite !selected_rows_below. Qed.

(** C5. Row 0 of the parsed body is skipped before any numeric
    processing: whatever it holds, the run ends the same way, prints the
    same lines (the identified courses, the row counts of the cleaning
    report and the ranking table with its averages and counts) and builds
    the same figure; the row count before cleaning is the number of rows
    below row 0. *)
Theorem metadata_row_skipped parser fp fs1 fs2 ds cols r0 r0' body :
  first_sheet fs1 = Some (mkFrame cols (r0 :: body)) ->
  first_sheet fs2 = Some (mkFrame cols (r0' :: body)) ->
  fst (run parser fp fs1 ds) = fst (run parser fp fs2 ds) /\
  stdout (snd (run parser fp fs1 ds)) = stdout (snd (run parser fp fs2 ds)) /\
  figure (snd (run parser fp fs1 ds)) = figure (snd (run parser fp fs2 ds)) /\
  forall names,
    len (coerced parser names (mkFrame cols (r0 :: body))) = length body.
Proof.
  intros H1 H2.
  destruct (labels_of (mkFrame cols (r0 :: body))) as [e|names] eqn:Hl.
  - assert (Hl' : labels_of (mkFrame cols (r0' :: body)) = inl e) by exact Hl.
    rewrite (run_failure parser fp _ ds _ _ H1 Hl).
    rewrite (run_failure parser fp _ ds _ _ H2 Hl').
    repeat split. intros; apply coerced_below.
  - assert (Hl' : labels_of (mkFrame cols (r0' :: body)) = inr names) by exact Hl.
    rewrite (run_success parser fp _ ds _ _ H1 Hl).
    rewrite (run_success parser fp _ ds _ _ H2 Hl').
    rewrite (ranking_below parser fp names cols r0 r0' body).
    rewrite (cleaned_below parser names cols r0 r0' body).
    rewrite !coerced_below.
    repeat split. intros; apply coerced_below.
Qed.

Lemma metadata_row_skipped_witness :
  let fs1 := Sample.disk Sample.survey in
  let fs2 := Sample.disk (mkFrame Sample.headers
                            (Sample.odd_row :: skipn 1 (rows Sample.survey))) in
  fst (run Sample.digits Binary64.arith fs1 []) = fst (run Sample.digits Binary64.arith fs2 []) /\
  stdout (snd (run Sample.digits Binary64.arith fs1 [])) = stdout (snd (run Sample.digits Binary64.arith fs2 [])) /\
  figure (snd (run Sample.digits Binary64.arith fs1 [])) = figure (snd (run Sample.digits Binary64.arith fs2 [])).
Proof.
  intros fs1 fs2.
  destruct (metadata_row_skipped Sample.digits Binary64.arith fs1 fs2 [] Sample.headers
              Sample.metadata_row Sample.odd_row (skipn 1 (rows Sample.survey))
              eq_refl eq_refl) as (H1 & H2 & H3 & _).
  split; [exact H1 | split; [exact H2 | exact H3]].
Defined.










Lemma sort_values_sorted_id l : sorted_rows l -> sort_values l = l.
Proof.
  induction 1 as [|x|x y l Hxy Hs IH]; try reflexivity.
  change (sort_values (x :: y :: l)) with (insert_row x (sort_values (y :: l))).
  rewrite IH. cbn [insert_row]. now rewrite Hxy.
Qed.

(** With no surviving row every average is NaN and every count is 0, and
    the sort leaves the rows in column order. *)
Lemma presort_all_missing parser fp names df :
  length names = 8 -> len (cleaned parser names df) = 0 ->
  presort parser fp names df = map (fun n => mkRow n None 0) names.
Proof.
  intros Hlen Hzero.
  rewrite (presort_per_course _ _ _ _ Hlen). unfold per_course, column_at.
  unfold len in Hzero. apply length_zero_iff_nil in Hzero. rewrite Hzero.
  do 9 (destruct names as [|? names]; try discriminate). reflexivity.
Qed.

Lemma ranking_all_missing parser fp names df :
  length names = 8 -> len (cleaned parser names df) = 0 ->
  ranking parser fp names df = map (fun n => mkRow n None 0) names.
Proof.
  intros Hlen Hzero. unfold ranking.
  rewrite (presort_all_missing _ _ _ _ Hlen Hzero).
  do 9 (destruct names as [|? names]; try discriminate).
  apply sort_values_sorted_id. cbn.
  repeat (constructor; [reflexivity|]). constructor.
Qed.

Lemma key_leb_adjacent a b :
  key_leb a b = true ->
  ranked_before a b \/
  (AverageRating b = None /\ (AverageRating a = None -> Count b <= Count a)).
Proof.
  intros Hk.
  destruct (AverageRating a) as [x|] eqn:Ha, (AverageRating b) as [y|] eqn:Hb.
  - left. now apply (key_leb_ranked a b x y).
  - right. split; [reflexivity | discriminate].
  - unfold key_leb, key_compare in Hk. rewrite Ha, Hb in Hk. discriminate.
  - right. split; [reflexivity|]. intros _.
    unfold key_leb, key_compare in Hk. rewrite Ha, Hb in Hk. cbn in Hk.
    destruct (Nat.compare_spec (Count b) (Count a)); try discriminate; lia.
Qed.

(** C1 (as the code has it). The ranking table is the stable sort of the
    statistics under Average Rating ascending with NaN last, then Count
    descending. Every two adjacent rows (a, b) have
    a.AverageRating < b.AverageRating, or equal averages and
    a.Count >= b.Count, or else the average of b is NaN: rows with a NaN
    average come last, where neither comparison holds. When no row
    survives cleaning, all averages are NaN and all counts 0, and the
    rows stay in column order. Rows with equal keys keep their order from
    before the sort, and the table is the only sorted list with that
    property. The order of adjacent rows holds for the sort of any
    statistics, also with counts that differ. *)
Theorem ranking_sorted_and_stable parser fp fs ds df names :
  first_sheet fs = Some df -> labels_of df = inr names ->
  exists t w,
    run parser fp fs ds = (inr tt, w) /\
    printed_table (stdout w) = Some t /\
    Permutation (presort parser fp names df) t /\
    sorted_rows t /\
    (forall a b, adjacent t a b ->
       ranked_before a b \/
       (AverageRating b = None /\
        (AverageRating a = None -> Count b <= Count a))) /\
    (len (cleaned parser names df) = 0 ->
     t = map (fun n => mkRow n None 0) names /\
     presort parser fp names df = map (fun n => mkRow n None 0) names) /\
    (forall k,
       filter (same_key k) t =
       filter (same_key k) (presort parser fp names df)) /\
    (forall t',
       sorted_rows t' ->
       (forall k, filter (same_key k) t' =
                  filter (same_key k) (presort parser fp names df)) ->
       t' = t) /\
    (forall stats a b,
       adjacent (sort_values stats) a b ->
       ranked_before a b \/
       (AverageRating b = None /\
        (AverageRating a = None -> Count b <= Count a))).
Proof.
  intros Hs Hl. pose proof (labels_of_length _ _ Hl) as Hlen.
  exists (ranking parser fp names df). eexists.
  split; [apply (run_success parser fp _ ds _ _ Hs Hl)|].
  split; [reflexivity|].
  split; [apply sort_values_perm|].
  split; [apply sort_values_sorted|].
  split; [|split].
  - intros a b Hab. apply key_leb_adjacent.
    eapply sorted_rows_adjacent; [apply sort_values_sorted | exact Hab].
  - intros Hzero. split.
    + now apply ranking_all_missing.
    + now apply presort_all_missing.
  - split; [intros k; apply sort_values_stable|].
    split; [intros t' Hs' Hst; now apply sort_values_unique|].
    intros stats a b Hab. apply key_leb_adjacent.
    eapply sorted_rows_adjacent; [apply sort_values_sorted | exact Hab].
Qed.

Lemma ranking_sorted_witness :
  exists t w,
    run Sample.digits Binary64.arith (Sample.disk Sample.survey) [] = (inr tt, w) /\
    printed_table (stdout w) = Some t /\
    sorted_rows t /\
    forall a b, adjacent t a b ->
      ranked_before a b \/
      (AverageRating b = None /\
       (AverageRating a = None -> Count b <= Count a)).
Proof.
  destruct (ranking_sorted_and_stable Sample.digits Binary64.arith
              (Sample.disk Sample.survey) [] Sample.survey
              ["Taxation"; "Audit"; "Finance"; "Law"; "Data Analytics";
               "Research"; "Strategy"; "Ethics"])
    as (t & w & Hrun & Htable & _ & Hsorted & Hadj & _).
  - reflexivity.
  - vm_compute. reflexivity.
  - exists t, w.
    split; [exact Hrun | split; [exact Htable | split; [exact Hsorted|]]].
    exact Hadj.
Defined.

Lemma run_no_numbers :
  run Sample.digits Binary64.arith (Sample.disk Sample.no_numbers) [] =
  (inr tt,
   success_world Binary64.arith (Sample.disk Sample.no_numbers) []
     ["Taxation"; "Audit"; "Finance"; "Law"; "Data Analytics"; "Research";
      "Strategy"; "Ethics"] 2 0 nan_table).
Proof. vm_compute. reflexivity. Qed.

(** C1, counterexample. On a sheet whose answers hold no number the
    program prints a ranking table in which the first two rows, both with
    average NaN, are not in the order the claim states. *)
Lemma nan_ranking_not_ordered :
  exists t a b w,
    run Sample.digits Binary64.arith (Sample.disk Sample.no_numbers) [] = (inr tt, w) /\
    printed_table (stdout w) = Some t /\
    adjacent t a b /\
    ~ ranked_before a b.
Proof.
  exists nan_table, (mkRow "Taxation" None 0), (mkRow "Audit" None 0).
  eexists. split; [apply run_no_numbers|].
  split; [reflexivity|]. split.
  - exists []. eexists. reflexivity.
  - intros [H | [H _]]; exact H.
Qed.

Lemma lookup_cases fs :
  lookup file_path fs = None \/
  (exists f, lookup file_path fs = Some f /\ forall xl, f <> ExcelBook xl) \/
  lookup file_path fs = Some (ExcelBook []) \/
  exists df, first_sheet fs = Some df.
Proof.
  unfold first_sheet.
  destruct (lookup file_path fs) as [[[|[sheet df] others]| | |]|]; eauto;
    right; left; eexists; (split; [reflexivity | discriminate]).
Qed.

(** A run that raises has printed the loading line and nothing else, and
    has written nothing. *)
Lemma run_raises parser fp fs ds e :
  fst (run parser fp fs ds) = inl e -> snd (run parser fp fs ds) = failed_world fs ds.
Proof.
  destruct (lookup_cases fs) as [H | [(f & H & Hf) | [H | (df & H)]]].
  - rewrite (run_missing parser fp fs ds H). discriminate.
  - now rewrite (run_not_excel parser fp fs ds f H Hf).
  - now rewrite (run_no_sheet parser fp fs ds H).
  - destruct (labels_of df) as [e'|names] eqn:Hl.
    + now rewrite (run_failure parser fp fs ds df e' H Hl).
    + rewrite (run_success parser fp fs ds df names H Hl). discriminate.
Qed.

Lemma cleaned_none parser names df :
  (forall r c, In r (selected_rows df) -> In c r -> numeric parser c = false) ->
  len (cleaned parser names df) = 0.
Proof.
  intros Hnone. unfold len. rewrite cleaned_rows, length_map.
  pose proof (selected_rows_width df) as Hwidth.
  induction (selected_rows df) as [|r rs IH]; [reflexivity|].
  inversion Hwidth as [|? ? Hr Hrs]; subst. cbn [filter].
  destruct r as [|c r]; [discriminate|].
  cbn [forallb]. rewrite (Hnone (c :: r) c); [|now left|now left].
  cbn [andb]. apply IH; [|exact Hrs].
  intros r' c' Hr' Hc'. apply (Hnone r' c'); [now right | exact Hc'].
Qed.

(** C8 (as the code has it). The one handled error is the missing input
    file. A file that is no workbook, a workbook without a sheet, a sheet
    with fewer than 19 columns and a header of the span that is not text
    each raise an exception that nothing catches, and the run writes
    nothing. A data set without a number raises nothing: every row is
    dropped and the program writes the CSV file and the chart with eight
    rows of average NaN and count 0. *)
Theorem only_file_not_found_handled parser fp fs ds :
  (lookup file_path fs = None ->
   run parser fp fs ds =
     (inr tt, mkWorld [loading_line; not_found_line] fs ds None)) /\
  (forall f, lookup file_path fs = Some f -> (forall xl, f <> ExcelBook xl) ->
     run parser fp fs ds =
       (inl (OtherError "not an Excel workbook"), failed_world fs ds)) /\
  (lookup file_path fs = Some (ExcelBook []) ->
   run parser fp fs ds = (inl IndexError, failed_world fs ds)) /\
  (forall df, first_sheet fs = Some df -> length (columns df) < 19 ->
     run parser fp fs ds = (inl IndexError, failed_world fs ds)) /\
  (forall df i n,
     first_sheet fs = Some df -> 19 <= length (columns df) ->
     11 <= i < 19 -> nth_error (columns df) i = Some (LNum n) ->
     run parser fp fs ds = (inl TypeError, failed_world fs ds)) /\
  (forall e, fst (run parser fp fs ds) = inl e ->
     snd (run parser fp fs ds) = failed_world fs ds) /\
  (forall df names,
     first_sheet fs = Some df -> labels_of df = inr names ->
     exists t w,
       run parser fp fs ds = (inr tt, w) /\
       printed_table (stdout w) = Some t /\
       lookup csv_path (files w) = Some (CsvFile csv_header t) /\
       lookup png_path (files w) = Some (PngFile (chart fp t)) /\
       ((forall r c, In r (selected_rows df) -> In c r ->
                     numeric parser c = false) ->
        t = map (fun n => mkRow n None 0) names)).
Proof.
  split; [apply run_missing|].
  split; [apply run_not_excel|].
  split; [apply run_no_sheet|].
  split; [|split; [|split; [apply run_raises|]]].
  - intros df Hs Hshort.
    apply (run_failure parser fp fs ds df IndexError Hs (labels_of_short df Hshort)).
  - intros df i n Hs Hwide Hi Hn.
    apply (run_failure parser fp fs ds df TypeError Hs
             (labels_of_non_text df i n Hwide Hi Hn)).
  - intros df names Hs Hl. eexists _, _.
    split; [apply (run_success parser fp _ ds _ _ Hs Hl)|].
    split; [reflexivity|]. split; [reflexivity|]. split; [reflexivity|].
    intros Hnone. apply ranking_all_missing.
    + exact (labels_of_length _ _ Hl).
    + now apply cleaned_none.
Qed.

Lemma only_file_not_found_witness :
  run Sample.digits Binary64.arith (Sample.disk Sample.narrow) [] =
    (inl IndexError, failed_world (Sample.disk Sample.narrow) []) /\
  run Sample.digits Binary64.arith [(file_path, OtherFile)] [] =
    (inl (OtherError "not an Excel workbook"),
     failed_world [(file_path, OtherFile)] []).
Proof.
  split.
  - apply (proj1 (proj2 (proj2 (proj2
             (only_file_not_found_handled Sample.digits Binary64.arith
                (Sample.disk Sample.narrow) []))))
           Sample.narrow eq_refl).
    simpl. lia.
  - apply (proj1 (proj2
             (only_file_not_found_handled Sample.digits Binary64.arith
                [(file_path, OtherFile)] []))
           OtherFile eq_refl).
    discriminate.
Defined.

(** C8, counterexample. A sheet whose answers hold no number does not make
    the program raise: it returns normally and writes both output files. *)
Lemma no_numbers_does_not_raise :
  fst (run Sample.digits Binary64.arith (Sample.disk Sample.no_numbers) []) = inr tt /\
  (forall r c, In r (selected_rows Sample.no_numbers) -> In c r ->
               numeric Sample.digits c = false) /\
  lookup csv_path
    (files (snd (run Sample.digits Binary64.arith (Sample.disk Sample.no_numbers) []))) =
    Some (CsvFile csv_header nan_table) /\
  lookup png_path
    (files (snd (run Sample.digits Binary64.arith (Sample.disk Sample.no_numbers) []))) =
    Some (PngFile (chart Binary64.arith nan_table)).
Proof.
  rewrite run_no_numbers. split; [reflexivity|]. split.
  - intros r c Hr Hc. cbn in Hr.
    destruct Hr as [<- | [<- | []]]; cbn in Hc;
      repeat (destruct Hc as [<- | Hc]; [reflexivity|]); destruct Hc.
  - split; reflexivity.
Qed.

(* ===================================================================== *)
(** * Further properties of the program *)
(* ===================================================================== *)

Lemma sample_labels : labels_of Sample.survey = inr sample_names.
Proof. vm_compute. reflexivity. Qed.

(** [literal_005] is the binary64 float nearest to 0.05. *)
Lemma literal_005_nearest :
  Binary64.of_float (Binary64.to_float (Fin (5 # 100))) = Some literal_005.
Proof. vm_compute. reflexivity. Qed.

(** ** Splitting headers *)

Lemma strip_prefix_app sep x y r :
  strip_prefix sep x = Some r -> strip_prefix sep (x ++ y)%string = Some (r ++ y)%string.
Proof.
  intros H. apply strip_prefix_Some in H. subst x.
  apply strip_prefix_Some. now rewrite append_assoc.
Qed.

(** The text before a cut holds no separator. *)
Lemma cut_before_free c sep' s b a :
  cut (String c sep') s = Some (b, a) -> contains (String c sep') b = false.
Proof.
  revert b a; induction s as [|x s IH]; intros b a H.
  - simpl in H. discriminate.
  - cbn [cut] in H.
    destruct (strip_prefix (String c sep') (String x s)) as [r|] eqn:E.
    + inversion H; subst. reflexivity.
    + destruct (cut (String c sep') s) as [[b' a']|] eqn:E'; [|discriminate].
      inversion H; subst. cbn [contains].
      destruct (strip_prefix (String c sep') (String x b')) as [r|] eqn:E2.
      * exfalso. pose proof (cut_Some _ _ _ _ E') as Hs.
        apply (strip_prefix_app _ _ (String c sep' ++ a)%string) in E2.
        change (String x b' ++ String c sep' ++ a)%string
          with (String x (b' ++ String c sep' ++ a)%string) in E2.
        rewrite <- Hs in E2. congruence.
      * now apply (IH b' a).
Qed.

(** X1. For a separator that is not empty, joining the segments of
    [s.split(sep)] with the separator gives the text back; there is at
    least one segment, no segment holds the separator, and there is one
    segment exactly when the text holds no separator. *)
Theorem split_join_round_trip (sep s : string) segs :
  split sep s = inr segs ->
  join sep segs = s /\
  1 <= length segs /\
  Forall (fun g => contains sep g = false) segs /\
  (length segs = 1 <-> contains sep s = false).
Proof.
  destruct sep as [|c sep']; [discriminate|]. cbn [split].
  intros H. inversion H; subst segs. clear H.
  funelim (split_from c sep' s).
  - destruct H as (Hj & Hl & Hf & Hone).
    pose proof (cut_Some _ _ _ _ e) as Hs.
    repeat split.
    + cbn [join]. destruct (split_from c sep' a) eqn:E; [simpl in Hl; lia|].
      rewrite Hj. now rewrite Hs.
    + simpl. lia.
    + constructor; [eapply cut_before_free; eauto | assumption].
    + intros Hlen. simpl in Hlen. lia.
    + intros Hc. apply contains_false_cut in Hc. congruence.
  - pose proof (proj2 (contains_false_cut _ _) e) as Hfree.
    repeat split; auto.
Qed.

Lemma split_join_witness :
  split " - " "MAcc - Q35_1 - Taxation" = inr ["MAcc"; "Q35_1"; "Taxation"] /\
  join " - " ["MAcc"; "Q35_1"; "Taxation"] = "MAcc - Q35_1 - Taxation".
Proof.
  split; [reflexivity|].
  apply (split_join_round_trip " - " "MAcc - Q35_1 - Taxation"
           ["MAcc"; "Q35_1"; "Taxation"]).
  reflexivity.
Defined.

(** X2. Deriving a course name is idempotent: the name of a text header
    holds no separator, is an end of the header, and is its own course
    name. *)
Theorem course_name_idempotent (h name : string) :
  course_name (LStr h) = inr name ->
  course_name (LStr name) = inr name /\
  contains SEP name = false /\
  exists prefix, h = (prefix ++ name)%string.
Proof.
  unfold course_name at 1. destruct (contains SEP h) eqn:Hc.
  - unfold SEP, split in *.
    destruct (split_from_last " " "- " h) as (front & n & Hs & Hn & Hnil & Hp).
    rewrite Hs. cbn [bind_exn]. rewrite last_item_app.
    intros H; inversion H; subst n. unfold course_name. 
    change SEP with " - ". rewrite Hn. repeat split; auto.
    destruct front as [|f front].
    + exists EmptyString. now rewrite (Hnil eq_refl).
    + destruct Hp as (p & Hh); [discriminate|].
      exists (p ++ " - ")%string. rewrite Hh. now rewrite append_assoc.
  - intros H; inversion H; subst name. unfold course_name. rewrite Hc.
    repeat split; auto. now exists EmptyString.
Qed.

Lemma course_name_idempotent_witness :
  course_name (LStr "Q35_1 - Taxation") = inr "Taxation" /\
  course_name (LStr "Taxation") = inr "Taxation".
Proof.
  split; [reflexivity|].
  apply (course_name_idempotent "Q35_1 - Taxation" "Taxation"). reflexivity.
Defined.

(** ** The columns and the sheet that are read *)

Lemma map_exn_nth {A B : Type} (f : A -> exn + B) xs ys k x :
  map_exn f xs = inr ys -> nth_error xs k = Some x ->
  exists y, nth_error ys k = Some y /\ f x = inr y.
Proof.
  revert ys k; induction xs as [|x' xs IH]; intros ys k H Hk.
  - destruct k; discriminate.
  - simpl in H. destruct (f x') as [|y'] eqn:E; [discriminate|]. simpl in H.
    destruct (map_exn f xs) as [|ys']; [discriminate|]. simpl in H.
    inversion H; subst. destruct k as [|k]; simpl in *.
    + inversion Hk; subst. eauto.
    + eapply IH; eauto.
Qed.

Lemma map_exn_ext_in {A B : Type} (f g : A -> exn + B) xs :
  (forall x, In x xs -> f x = g x) -> map_exn f xs = map_exn g xs.
Proof.
  induction xs as [|x xs IH]; intros H; [reflexivity|].
  simpl. rewrite (H x (or_introl eq_refl)), IH; [reflexivity|].
  intros y Hy. apply H. now right.
Qed.

(** X3. The identified courses follow the columns: the run prints the
    list of names, and its k-th name is the course name of the header at
    position 11 + k, which is a text. *)
Theorem names_follow_columns parser fp fs ds df names :
  first_sheet fs = Some df -> labels_of df = inr names ->
  (exists w, run parser fp fs ds = (inr tt, w) /\
             In (TextList "Identified courses:" names) (stdout w)) /\
  forall k, k < 8 ->
    exists h name,
      nth_error (columns df) (11 + k) = Some (LStr h) /\
      nth_error names k = Some name /\
      course_name (LStr h) = inr name.
Proof.
  intros Hs Hl. split.
  - eexists. split; [apply (run_success parser fp _ ds _ _ Hs Hl)|].
    cbn [success_world stdout]. right. now left.
  - intros k Hk. destruct (labels_of_tcols _ _ Hl) as (tcols & Ht & Hn).
    assert (Hidx : nth_error target_cols_indices k = Some (11 + k)).
    { unfold target_cols_indices. 
      do 8 (destruct k as [|k]; [reflexivity|]). lia. }
    destruct (map_exn_nth _ _ _ _ _ Ht Hidx) as (col & Hcol & Hpick).
    destruct (nth_error (columns df) (11 + k)) as [col'|] eqn:E; [|discriminate].
    inversion Hpick; subst col'.
    destruct (map_exn_nth _ _ _ _ _ Hn Hcol) as (name & Hname & Hcn).
    destruct col as [h|n]; [|discriminate]. eauto.
Qed.

Lemma names_follow_columns_witness :
  exists h name,
    nth_error (columns Sample.survey) 18 = Some (LStr h) /\
    nth_error sample_names 7 = Some name /\
    course_name (LStr h) = inr name.
Proof.
  apply (proj2 (names_follow_columns Sample.digits Binary64.arith (Sample.disk Sample.survey)
                  [] Sample.survey sample_names eq_refl sample_labels) 7).
  lia.
Defined.

(** X4. Only the columns at positions 11-18 are read: two sheets with the
    same number of rows that agree on the headers and on the cells at
    these positions give the same result, the same printed lines and the
    same figure. *)
Theorem only_span_columns_matter parser fp fs1 fs2 ds df1 df2 :
  first_sheet fs1 = Some df1 -> first_sheet fs2 = Some df2 ->
  (forall i, 11 <= i < 19 ->
     nth_error (columns df1) i = nth_error (columns df2) i) ->
  length (rows df1) = length (rows df2) ->
  (forall k i, 11 <= i < 19 ->
     nth i (nth k (rows df1) []) CNaN = nth i (nth k (rows df2) []) CNaN) ->
  fst (run parser fp fs1 ds) = fst (run parser fp fs2 ds) /\
  stdout (snd (run parser fp fs1 ds)) = stdout (snd (run parser fp fs2 ds)) /\
  figure (snd (run parser fp fs1 ds)) = figure (snd (run parser fp fs2 ds)).
Proof.
  intros H1 H2 Hcols Hlen Hcells.
  assert (Hlab : labels_of df1 = labels_of df2).
  { unfold labels_of, take_positions. f_equal. apply map_exn_ext_in.
    intros i Hi. unfold target_cols_indices in Hi. apply in_seq in Hi.
    rewrite Hcols; [reflexivity | lia]. }
  assert (Hsel : selected_rows df1 = selected_rows df2).
  { unfold selected_rows.
    apply (nth_ext _ _ [] []).
    - now rewrite !length_map, !length_skipn, Hlen.
    - intros k Hk. rewrite length_map in Hk.
      rewrite !(nth_indep _ [] (map (fun i => nth i [] CNaN) target_cols_indices));
        try (rewrite length_map; rewrite ?length_skipn in *; lia).
      rewrite !(map_nth (fun r => map (fun i => nth i r CNaN) target_cols_indices)).
      apply map_ext_in. intros i Hi. unfold target_cols_indices in Hi.
      apply in_seq in Hi. rewrite !nth_skipn. apply Hcells. lia. }
  assert (Hrank : forall names, ranking parser fp names df1 = ranking parser fp names df2).
  { intros names. unfold ranking, presort, cleaned, coerced. now rewrite Hsel. }
  assert (Hclean : forall names, cleaned parser names df1 = cleaned parser names df2).
  { intros names. unfold cleaned, coerced. now rewrite Hsel. }
  assert (Hco : forall names, coerced parser names df1 = coerced parser names df2).
  { intros names. unfold coerced. now rewrite Hsel. }
  destruct (labels_of df1) as [e|names] eqn:Hl.
  - symmetry in Hlab.
    rewrite (run_failure parser fp fs1 ds df1 e H1 Hl).
    rewrite (run_failure parser fp fs2 ds df2 e H2 Hlab). repeat split.
  - symmetry in Hlab.
    rewrite (run_success parser fp fs1 ds df1 names H1 Hl).
    rewrite (run_success parser fp fs2 ds df2 names H2 Hlab).
    rewrite Hrank, Hclean, Hco. repeat split.
Qed.

Ltac span_cases i Hi :=
  assert (Hcases : i = 11 \/ i = 12 \/ i = 13 \/ i = 14 \/
                   i = 15 \/ i = 16 \/ i = 17 \/ i = 18) by lia;
  clear Hi;
  repeat (destruct Hcases as [-> | Hcases]; [reflexivity|]);
  subst i; reflexivity.

Lemma only_span_columns_witness :
  stdout (snd (run Sample.digits Binary64.arith (Sample.disk Sample.survey) [])) =
  stdout (snd (run Sample.digits Binary64.arith (Sample.disk blanked_survey) [])).
Proof.
  destruct (only_span_columns_matter Sample.digits Binary64.arith (Sample.disk Sample.survey)
              (Sample.disk blanked_survey) [] Sample.survey blanked_survey
              eq_refl eq_refl) as (_ & Hout & _).
  - intros i Hi. span_cases i Hi.
  - reflexivity.
  - intros k i Hi.
    do 11 (destruct k as [|k]; [span_cases i Hi|]).
    destruct k; span_cases i Hi.
  - exact Hout.
Defined.

(** X5. Only the first sheet of the workbook is read: the name of the
    sheet and the sheets after it do not change the result, the printed
    lines, the figure, the directories or the CSV file. *)
Theorem only_first_sheet_is_read parser fp fs1 fs2 ds name1 name2 df rest1 rest2 :
  lookup file_path fs1 = Some (ExcelBook ((name1, df) :: rest1)) ->
  lookup file_path fs2 = Some (ExcelBook ((name2, df) :: rest2)) ->
  fst (run parser fp fs1 ds) = fst (run parser fp fs2 ds) /\
  stdout (snd (run parser fp fs1 ds)) = stdout (snd (run parser fp fs2 ds)) /\
  figure (snd (run parser fp fs1 ds)) = figure (snd (run parser fp fs2 ds)) /\
  dirs (snd (run parser fp fs1 ds)) = dirs (snd (run parser fp fs2 ds)) /\
  (fst (run parser fp fs1 ds) = inr tt ->
   lookup csv_path (files (snd (run parser fp fs1 ds))) =
   lookup csv_path (files (snd (run parser fp fs2 ds)))).
Proof.
  intros H1 H2.
  assert (Hs1 : first_sheet fs1 = Some df) by (unfold first_sheet; now rewrite H1).
  assert (Hs2 : first_sheet fs2 = Some df) by (unfold first_sheet; now rewrite H2).
  destruct (labels_of df) as [e|names] eqn:Hl.
  - rewrite (run_failure parser fp fs1 ds df e Hs1 Hl).
    rewrite (run_failure parser fp fs2 ds df e Hs2 Hl).
    repeat split. discriminate.
  - rewrite (run_success parser fp fs1 ds df names Hs1 Hl).
    rewrite (run_success parser fp fs2 ds df names Hs2 Hl).
    repeat split.
Qed.

Lemma only_first_sheet_witness :
  stdout (snd (run Sample.digits Binary64.arith (Sample.disk Sample.survey) [])) =
  stdout (snd (run Sample.digits Binary64.arith
                 [(file_path,
                   ExcelBook [("Responses", Sample.survey);
                              ("Sheet1", Sample.no_numbers)])] [])).
Proof.
  destruct (only_first_sheet_is_read Sample.digits Binary64.arith (Sample.disk Sample.survey)
              [(file_path,
                ExcelBook [("Responses", Sample.survey);
                           ("Sheet1", Sample.no_numbers)])]
              [] "Sheet1" "Responses" Sample.survey []
              [("Sheet1", Sample.no_numbers)] eq_refl eq_refl)
    as (_ & Hout & _).
  exact Hout.
Defined.

(** ** The cleaning report and the statistics *)

Lemma existsb_negb_forallb {A : Type} (f : A -> bool) (l : list A) :
  existsb (fun x => negb (f x)) l = negb (forallb f l).
Proof.
  induction l as [|x l IH]; [reflexivity|].
  simpl. rewrite IH. now destruct (f x), (forallb f l).
Qed.

Lemma filter_split_length {A : Type} (f : A -> bool) (l : list A) :
  length (filter f l) + length (filter (fun x => negb (f x)) l) = length l.
Proof.
  induction l as [|x l IH]; [reflexivity|].
  simpl. destruct (f x); simpl; lia.
Qed.

(** X6. The cleaning report is exact: the first count is the number of
    rows below row 0, the second the number of rows whose eight cells are
    all numbers, and the number of dropped rows, their difference, is the
    number of rows with a cell that is no number; it is 0 exactly when
    every selected cell is a number. *)
Theorem cleaning_report_counts parser fp fs ds df names :
  first_sheet fs = Some df -> labels_of df = inr names ->
  let total := length (rows df) - 1 in
  let kept := length (filter (forallb (numeric parser)) (selected_rows df)) in
  let dropped := length (filter (incomplete parser) (selected_rows df)) in
  exists w,
    run parser fp fs ds = (inr tt, w) /\
    In (Text (cleaning_report total kept)) (stdout w) /\
    total - kept = dropped /\
    kept + dropped = total /\
    (dropped = 0 <->
     forall r c, In r (selected_rows df) -> In c r -> numeric parser c = true).
Proof.
  intros Hs Hl total kept dropped.
  assert (Htotal : length (selected_rows df) = total).
  { unfold selected_rows, total. rewrite length_map, length_skipn. reflexivity. }
  assert (Hsum : kept + dropped = total).
  { unfold kept, dropped. rewrite <- Htotal.
    rewrite <- (filter_split_length (forallb (numeric parser)) (selected_rows df)).
    f_equal. f_equal. apply filter_ext. intros r. unfold incomplete.
    apply existsb_negb_forallb. }
  eexists. split; [apply (run_success parser fp _ ds _ _ Hs Hl)|].
  split; [|split; [lia | split; [exact Hsum|]]].
  - cbn [success_world stdout]. right. right. left.
    unfold len at 1. unfold coerced, apply_to_numeric. cbn [rows].
    rewrite length_map, Htotal.
    unfold len. rewrite cleaned_rows, length_map. reflexivity.
  - unfold dropped. split.
    + intros Hz r c Hr Hc. apply length_zero_iff_nil in Hz.
      destruct (numeric parser c) eqn:E; [reflexivity|].
      assert (Hin : In r (filter (incomplete parser) (selected_rows df))).
      { apply filter_In. split; [exact Hr|]. unfold incomplete.
        apply existsb_exists. exists c. split; [exact Hc | now rewrite E]. }
      rewrite Hz in Hin. destruct Hin.
    + intros Hall. apply length_zero_iff_nil.
      destruct (filter (incomplete parser) (selected_rows df)) as [|r l] eqn:E;
        [reflexivity|].
      assert (Hin : In r (filter (incomplete parser) (selected_rows df)))
        by (rewrite E; now left).
      apply filter_In in Hin. destruct Hin as [Hr Hi].
      unfold incomplete in Hi. apply existsb_exists in Hi.
      destruct Hi as (c & Hc & Hn). rewrite (Hall r c Hr Hc) in Hn. discriminate.
Qed.

Lemma cleaning_report_counts_witness :
  exists w,
    run Sample.digits Binary64.arith (Sample.disk Sample.survey) [] = (inr tt, w) /\
    In (Text "Data cleaning: 10 rows -> 8 rows (dropped 2 rows with missing values).")
       (stdout w) /\
    length (filter (incomplete Sample.digits) (selected_rows Sample.survey)) = 2.
Proof.
  destruct (cleaning_report_counts Sample.digits Binary64.arith (Sample.disk Sample.survey)
              [] Sample.survey sample_names eq_refl sample_labels)
    as (w & Hrun & Hline & Hdrop & _).
  exists w. split; [exact Hrun|]. split; [exact Hline|].
  rewrite <- Hdrop. vm_compute. reflexivity.
Defined.

Lemma sorted_rows_suffix l1 l2 : sorted_rows (l1 ++ l2) -> sorted_rows l2.
Proof.
  induction l1 as [|x l1 IH]; [auto|].
  intros H. apply IH. simpl in H. eapply sorted_rows_tail; eauto.
Qed.

(** X8. The ranking is ordered throughout, not only between neighbours:
    for a row and any row after it, the average of the later row is NaN
    or the average of the earlier row is at most that of the later one;
    so the first row has the least average of the rows whose average is
    a number. *)
Theorem earlier_rows_rank_better parser fp fs ds df names :
  first_sheet fs = Some df -> labels_of df = inr names ->
  exists t w,
    run parser fp fs ds = (inr tt, w) /\
    printed_table (stdout w) = Some t /\
    (forall before a after b,
       t = before ++ a :: after -> In b after ->
       AverageRating b = None \/
       float_le (AverageRating a) (AverageRating b)) /\
    (forall best others b,
       t = best :: others -> In b t ->
       AverageRating b = None \/
       float_le (AverageRating best) (AverageRating b)).
Proof.
  intros Hs Hl.
  eexists _, _. split; [apply (run_success parser fp _ ds _ _ Hs Hl)|].
  split; [reflexivity|].
  assert (Hle : forall a b, key_leb a b = true ->
                  AverageRating b = None \/
                  float_le (AverageRating a) (AverageRating b)).
  { intros a b Hk. unfold key_leb, key_compare in Hk.
    destruct (AverageRating a) as [x|], (AverageRating b) as [y|];
      cbn in Hk; try (now left); try discriminate.
    right. cbn [float_le]. unfold num_le.
    destruct (num_compare x y) eqn:E; try discriminate.
    - right. now apply num_compare_Eq.
    - left. now apply num_compare_Lt. }
  assert (Hall : forall before a after b,
            ranking parser fp names df = before ++ a :: after -> In b after ->
            AverageRating b = None \/
            float_le (AverageRating a) (AverageRating b)).
  { intros before a after b Ht Hb.
    pose proof (sort_values_sorted (presort parser fp names df)) as Hsorted.
    fold (ranking parser fp names df) in Hsorted. rewrite Ht in Hsorted.
    apply sorted_rows_suffix in Hsorted.
    apply Hle. eapply sorted_rows_head; eauto. }
  split; [exact Hall|].
  intros best others b Ht Hb. pose proof Hb as Hb'. rewrite Ht in Hb'.
  destruct Hb' as [<-|Hb'].
  - apply Hle. unfold key_leb. now rewrite key_compare_refl.
  - apply (Hall [] best others b Ht Hb').
Qed.

Lemma earlier_rows_witness :
  exists t w,
    run Sample.digits Binary64.arith (Sample.disk Sample.survey) [] = (inr tt, w) /\
    printed_table (stdout w) = Some t /\
    (forall best others b,
       t = best :: others -> In b t ->
       AverageRating b = None \/
       float_le (AverageRating best) (AverageRating b)).
Proof.
  destruct (earlier_rows_rank_better Sample.digits Binary64.arith
              (Sample.disk Sample.survey) [] Sample.survey sample_names
              eq_refl sample_labels)
    as (t & w & Hrun & Htable & _ & Hbest).
  exists t, w. split; [exact Hrun | split; [exact Htable | exact Hbest]].
Defined.

(** ** The outputs *)

(** X10. A run, however it ends, leaves every file other than the two
    output files as it was; the input workbook in particular is never
    changed. *)
Theorem other_files_untouched parser fp fs ds p :
  p <> csv_path -> p <> png_path ->
  lookup p (files (snd (run parser fp fs ds))) = lookup p fs.
Proof.
  intros Hcsv Hpng.
  destruct (lookup_cases fs) as [H | [(f & H & Hf) | [H | (df & H)]]].
  - now rewrite (run_missing parser fp fs ds H).
  - now rewrite (run_not_excel parser fp fs ds f H Hf).
  - now rewrite (run_no_sheet parser fp fs ds H).
  - destruct (labels_of df) as [e|names] eqn:Hl.
    + now rewrite (run_failure parser fp fs ds df e H Hl).
    + rewrite (run_success parser fp fs ds df names H Hl).
      cbn [snd success_world files lookup].
      apply String.eqb_neq in Hcsv, Hpng. now rewrite Hpng, Hcsv.
Qed.

Lemma other_files_untouched_witness :
  lookup file_path
    (files (snd (run Sample.digits Binary64.arith (Sample.disk Sample.survey) []))) =
  lookup file_path (Sample.disk Sample.survey).
Proof.
  apply (other_files_untouched Sample.digits Binary64.arith (Sample.disk Sample.survey) []
           file_path); intros H; vm_compute in H; discriminate.
Defined.

(** X11. The saved chart is the current figure; it has eight bars and
    one text per bar, in the order of the bars: the text of a bar shows
    the width of the bar and is placed at the width plus 0.05. *)
Theorem every_bar_annotated parser fp fs ds df names :
  first_sheet fs = Some df -> labels_of df = inr names ->
  exists fig w,
    run parser fp fs ds = (inr tt, w) /\
    lookup png_path (files w) = Some (PngFile fig) /\
    figure w = Some fig /\
    length (bars fig) = 8 /\
    length (texts fig) = 8 /\
    map text_bar (texts fig) = map bar_label (bars fig) /\
    map text_shown (texts fig) = map bar_width (bars fig) /\
    map text_x (texts fig) = map (fun b => plus_offset fp (bar_width b)) (bars fig).
Proof.
  intros Hs Hl. pose proof (labels_of_length _ _ Hl) as Hlen.
  eexists _, _. split; [apply (run_success parser fp _ ds _ _ Hs Hl)|].
  split; [reflexivity|]. split; [reflexivity|].
  cbn [chart bars texts].
  assert (H8 : length (map row_bar (rev (ranking parser fp names df))) = 8).
  { rewrite length_map, length_rev.
    rewrite <- (Permutation_length (ranking_perm parser fp names df Hlen)).
    unfold per_course. now rewrite length_map, length_seq. }
  split; [exact H8|]. split; [now rewrite length_map|].
  rewrite !map_map. repeat split.
Qed.

Lemma every_bar_annotated_witness :
  exists fig w,
    run Sample.digits Binary64.arith (Sample.disk Sample.survey) [] = (inr tt, w) /\
    lookup png_path (files w) = Some (PngFile fig) /\
    length (texts fig) = 8 /\
    map text_shown (texts fig) = map bar_width (bars fig).
Proof.
  destruct (every_bar_annotated Sample.digits Binary64.arith (Sample.disk Sample.survey)
              [] Sample.survey sample_names eq_refl sample_labels)
    as (fig & w & Hrun & Hpng & _ & _ & Hn & _ & Hshown & _).
  exists fig, w.
  split; [exact Hrun | split; [exact Hpng | split; [exact Hn | exact Hshown]]].
Defined.

(** X12. Running the program again on the file system it left behind
    gives the same printed lines, figure, directories and output files:
    the outputs of the first run do not feed into the second, and the
    input workbook is still in place. *)
Theorem rerun_gives_same_outputs parser fp fs ds df names :
  first_sheet fs = Some df -> labels_of df = inr names ->
  exists w1 w2,
    run parser fp fs ds = (inr tt, w1) /\
    run parser fp (files w1) (dirs w1) = (inr tt, w2) /\
    stdout w2 = stdout w1 /\
    figure w2 = figure w1 /\
    dirs w2 = dirs w1 /\
    lookup csv_path (files w2) = lookup csv_path (files w1) /\
    lookup png_path (files w2) = lookup png_path (files w1) /\
    lookup file_path (files w2) = lookup file_path fs.
Proof.
  intros Hs Hl. eexists _, _.
  split; [apply (run_success parser fp _ ds _ _ Hs Hl)|].
  assert (Hs' : first_sheet
                  (files (success_world fp fs ds names
                            (len (coerced parser names df))
                            (len (cleaned parser names df))
                            (ranking parser fp names df))) = Some df).
  { unfold first_sheet in *. cbn [success_world files lookup].
    change (file_path =? png_path)%string with false.
    change (file_path =? csv_path)%string with false. exact Hs. }
  split; [apply (run_success parser fp _ _ _ _ Hs' Hl)|].
  cbn [success_world stdout figure dirs files].
  repeat split.
  destruct (existsb (String.eqb output_dir) ds) eqn:E.
  - now rewrite E.
  - cbn [existsb]. now rewrite String.eqb_refl.
Qed.

Lemma rerun_witness :
  exists w1 w2,
    run Sample.digits Binary64.arith (Sample.disk Sample.survey) [] = (inr tt, w1) /\
    run Sample.digits Binary64.arith (files w1) (dirs w1) = (inr tt, w2) /\
    stdout w2 = stdout w1 /\
    dirs w2 = dirs w1.
Proof.
  destruct (rerun_gives_same_outputs Sample.digits Binary64.arith (Sample.disk Sample.survey)
              [] Sample.survey sample_names eq_refl sample_labels)
    as (w1 & w2 & H1 & H2 & Hout & _ & Hd & _).
  exists w1, w2.
  split; [exact H1 | split; [exact H2 | split; [exact Hout | exact Hd]]].
Defined.
